(** * Form validation: the rule engine and the form aggregator

    A shallow embedding of [src/validation/validation.ts] (the base variant,
    five field kinds) and of the extended variant of the same module (eight
    field kinds, generic [validateForm]), with the properties of
    [validate], [validateForm], [isFormValid] and [getValidationType], and
    of the computing part of the form adapter [src/src/script.ts]. *)

From Stdlib Require Import ZArith NArith List String Ascii Bool Lia.
From Stdlib Require Import DecimalString Floats.SpecFloat.
From stdpp Require Import gmap list.

Local Open Scope N_scope.

(** ** The JavaScript values the module works on *)

Module JS.

(** A string is its sequence of UTF-16 code units; [length] is the [.length]
    of the source and [=] on lists is [===] on strings. *)
Definition jsstring : Type := list N.

(** A string literal of the source (all of them are ASCII). *)
Definition lit (s : string) : jsstring :=
  (λ a, N_of_ascii a) <$> list_ascii_of_string s.

(** WhiteSpace and LineTerminator code units: what [String.prototype.trim]
    strips, what [\s] matches and what [Number] skips around a numeral. *)
Definition isWhiteSpace (c : N) : bool :=
  (c =? 0x09) || (c =? 0x0A) || (c =? 0x0B) || (c =? 0x0C) || (c =? 0x0D)
  || (c =? 0x20) || (c =? 0xA0) || (c =? 0x1680)
  || ((0x2000 <=? c) && (c <=? 0x200A))
  || (c =? 0x2028) || (c =? 0x2029) || (c =? 0x202F) || (c =? 0x205F)
  || (c =? 0x3000) || (c =? 0xFEFF).

Fixpoint trimStart (s : jsstring) : jsstring :=
  match s with
  | c :: s' => if isWhiteSpace c then trimStart s' else s
  | [] => []
  end.

Definition trimEnd (s : jsstring) : jsstring := reverse (trimStart (reverse s)).

Definition trim (s : jsstring) : jsstring := trimEnd (trimStart s).

(** *** Regular expressions

    The two patterns of the source are anchored at both ends and carry no
    flag, so [test] decides whether the whole string is in the language of
    the pattern; membership is computed with derivatives. *)
Inductive regex : Type :=
  | Void
  | Eps
  | OneOf (p : N → bool)
  | Cat (r1 r2 : regex)
  | Alt (r1 r2 : regex)
  | Star (r : regex).

Fixpoint nullable (r : regex) : bool :=
  match r with
  | Void => false
  | Eps => true
  | OneOf _ => false
  | Cat r1 r2 => nullable r1 && nullable r2
  | Alt r1 r2 => nullable r1 || nullable r2
  | Star _ => true
  end.

Fixpoint deriv (c : N) (r : regex) : regex :=
  match r with
  | Void => Void
  | Eps => Void
  | OneOf p => if p c then Eps else Void
  | Cat r1 r2 =>
      if nullable r1 then Alt (Cat (deriv c r1) r2) (deriv c r2)
      else Cat (deriv c r1) r2
  | Alt r1 r2 => Alt (deriv c r1) (deriv c r2)
  | Star r1 => Cat (deriv c r1) (Star r1)
  end.

(** [/^r$/.test(s)] *)
Definition test (r : regex) (s : jsstring) : bool :=
  nullable (foldl (λ r c, deriv c r) r s).

Definition Plus (r : regex) : regex := Cat r (Star r).

Fixpoint Times (n : nat) (r : regex) : regex :=
  match n with
  | O => Eps
  | S n' => Cat r (Times n' r)
  end.

Definition Chr (a : ascii) : regex := OneOf (N.eqb (N_of_ascii a)).

(** [\d] *)
Definition isDigit (c : N) : bool := (0x30 <=? c) && (c <=? 0x39).

(** *** Numbers

    A Number is an IEEE 754 binary64 value. *)
Definition number : Type := spec_float.

Definition prec : Z := 53.
Definition emax : Z := 1024.

Definition NaN : number := S754_nan.
Definition ofZ (z : Z) : number := binary_normalize prec emax z 0 false.
Definition isNaN (x : number) : bool :=
  match x with S754_nan => true | _ => false end.
(** [x < y] on Numbers ([x > y] is [lt y x]); false when either is NaN. *)
Definition lt (x y : number) : bool := SFltb x y.

(** The Number nearest to [n / d] (ties to even), with the sign [neg]. *)
Definition ofRatio (neg : bool) (n d : positive) : number :=
  let '(m, e, l) := SFdiv_core_binary prec emax (Zpos n) 0 (Zpos d) 0 in
  binary_round_aux prec emax neg m e l.

(** The Number nearest to [m * 10 ^ e]. *)
Definition ofDecimal (neg : bool) (m : N) (e : Z) : number :=
  match m with
  | N0 => S754_zero neg
  | Npos p =>
      match e with
      | Zneg k => ofRatio neg p (Pos.pow 10 k)
      | _ => binary_normalize prec emax
               (if neg then Zneg p * 10 ^ e else Zpos p * 10 ^ e)%Z 0 neg
      end
  end.

(** The value of a digit in a radix up to 16, [None] for any other unit. *)
Definition digitValue (radix : N) (c : N) : option N :=
  let v := if (0x30 <=? c) && (c <=? 0x39) then Some (c - 0x30)
           else if (0x61 <=? c) && (c <=? 0x66) then Some (c - 0x61 + 10)
           else if (0x41 <=? c) && (c <=? 0x46) then Some (c - 0x41 + 10)
           else None in
  match v with
  | Some d => if d <? radix then Some d else None
  | None => None
  end.

(** Reads the longest prefix of digits: the accumulated value, the number of
    digits read and the rest of the string. *)
Fixpoint digits (radix : N) (acc : N) (count : nat) (s : jsstring)
  : N * nat * jsstring :=
  match s with
  | c :: s' =>
      match digitValue radix c with
      | Some d => digits radix (acc * radix + d) (S count) s'
      | None => (acc, count, s)
      end
  | [] => (acc, count, [])
  end.

(** A run of one or more digits that is the whole string. *)
Definition wholeInteger (radix : N) (s : jsstring) : option N :=
  match digits radix 0 O s with
  | (v, S _, []) => Some v
  | _ => None
  end.

(** ExponentPart (optional): [e] or [E], an optional sign, digits. *)
Definition exponentPart (s : jsstring) : option Z :=
  match s with
  | [] => Some 0%Z
  | c :: s' =>
      if (c =? 0x65) || (c =? 0x45) then
        match s' with
        | 0x2B :: s'' => Z.of_N <$> wholeInteger 10 s''
        | 0x2D :: s'' => (λ n, Z.opp (Z.of_N n)) <$> wholeInteger 10 s''
        | _ => Z.of_N <$> wholeInteger 10 s'
        end
      else None
  end.

(** StrUnsignedDecimalLiteral other than [Infinity]. *)
Definition unsignedDecimal (neg : bool) (s : jsstring) : number :=
  let '(i, ni, r1) := digits 10 0 O s in
  let '(m, nf, r2) :=
    match r1 with
    | 0x2E :: r => let '(m, n, r') := digits 10 i ni r in (m, (n - ni)%nat, r')
    | _ => (i, O, r1)
    end in
  match (ni + nf)%nat with
  | O => NaN
  | S _ =>
      match exponentPart r2 with
      | Some e => ofDecimal neg m (e - Z.of_nat nf)
      | None => NaN
      end
  end.

Definition strDecimalLiteral (neg : bool) (s : jsstring) : number :=
  if bool_decide (s = lit "Infinity") then S754_infinity neg
  else unsignedDecimal neg s.

Definition nonDecimal (radix : N) (s : jsstring) : number :=
  match wholeInteger radix s with
  | Some v => ofZ (Z.of_N v)
  | None => NaN
  end.

(** [Number(s)] on a string: StringToNumber. White space around the numeral
    is skipped, the empty numeral is [+0], anything that is not a
    StrNumericLiteral is [NaN]. *)
Definition Number (s : jsstring) : number :=
  match trim s with
  | [] => S754_zero false
  | 0x2B :: s' => strDecimalLiteral false s'
  | 0x2D :: s' => strDecimalLiteral true s'
  | 0x30 :: c :: s' =>
      if (c =? 0x78) || (c =? 0x58) then nonDecimal 16 s'
      else if (c =? 0x6F) || (c =? 0x4F) then nonDecimal 8 s'
      else if (c =? 0x62) || (c =? 0x42) then nonDecimal 2 s'
      else strDecimalLiteral false (0x30 :: c :: s')
  | s' => strDecimalLiteral false s'
  end.

(** [String(n)] for a non-negative integer. *)
Definition ofNat (n : nat) : jsstring :=
  lit (NilEmpty.string_of_uint (Nat.to_uint n)).

(** *** Property lookup on an object literal

    An object written as a literal inherits from [Object.prototype]: reading
    [o[k]] gives the own property [k] when there is one, else the member of
    [Object.prototype] of that name (a function, or for [__proto__] the
    prototype object itself), else [undefined]. *)
Definition ObjectPrototype : list jsstring :=
  lit <$> [ "constructor"; "hasOwnProperty"; "isPrototypeOf";
            "propertyIsEnumerable"; "toLocaleString"; "toString"; "valueOf";
            "__proto__"; "__defineGetter__"; "__defineSetter__";
            "__lookupGetter__"; "__lookupSetter__" ]%string.

Inductive property (A : Type) : Type :=
  | Own (a : A)
  | Inherited
  | Undefined.
Arguments Own {A} a.
Arguments Inherited {A}.
Arguments Undefined {A}.

Definition Get {A} (own : option A) (k : jsstring) : property A :=
  match own with
  | Some a => Own a
  | None => if bool_decide (k ∈ ObjectPrototype) then Inherited else Undefined
  end.

(** [results[k] = v] on an object that started as the literal [{}]: an own
    property is created or overwritten, except for [__proto__], whose
    inherited setter replaces the prototype and creates no own property. *)
Definition Set_ {A} (o : gmap jsstring A) (k : jsstring) (v : A)
  : gmap jsstring A :=
  if bool_decide (k = lit "__proto__") then o else <[k := v]> o.

(** [Object.keys(o)] and [Object.values(o)] of an object with the own
    enumerable properties [o]. *)
Definition keys {A} (o : gmap jsstring A) : list jsstring := (map_to_list o).*1.
Definition values {A} (o : gmap jsstring A) : list A := (map_to_list o).*2.

(** How a call completes: with a value, or by throwing a [TypeError]. *)
Inductive completion (A : Type) : Type :=
  | Return (a : A)
  | TypeError.
Arguments Return {A} a.
Arguments TypeError {A}.

#[export] Instance completion_bind : MBind completion :=
  λ A B k c, match c with Return a => k a | TypeError => TypeError end.

End JS.

Export JS.

(** ** The validation module *)

Record ValidationResult : Type := {
  isValid : bool;
  error : option jsstring
}.

Definition valid : ValidationResult := {| isValid := true; error := None |}.
Definition invalid (message : jsstring) : ValidationResult :=
  {| isValid := false; error := Some message |}.

(** A rule: [{ validate: (value, compareValue?) => boolean, errorMessage }]. *)
Module Rule.
Record Rule : Type := {
  validate : jsstring → option jsstring → bool;
  errorMessage : jsstring
}.
End Rule.
Abbreviation Rule := Rule.Rule.

(** The rule makers; an omitted argument is [None]. *)
Definition isRequired (message : option jsstring) : Rule :=
  {| Rule.validate := λ value _, (0 <? length (trim value))%nat;
     Rule.errorMessage := default (lit "This field is required") message |}.

Definition minLength (min : nat) (message : option jsstring) : Rule :=
  {| Rule.validate := λ value _, (min <=? length value)%nat;
     Rule.errorMessage :=
       match message with
       | Some (c :: m) => c :: m
       | _ => lit "Must be at least " ++ ofNat min ++ lit " characters"
       end |}.

(** [/^[^\s@]+@[^\s@]+\.[^\s@]+$/] *)
Definition emailRegex : regex :=
  let part := Plus (OneOf (λ c, negb (isWhiteSpace c || (c =? 0x40)))) in
  Cat part (Cat (Chr "@") (Cat part (Cat (Chr ".") part))).

Definition isEmail (message : option jsstring) : Rule :=
  {| Rule.validate := λ value _, test emailRegex value;
     Rule.errorMessage := default (lit "Invalid email address") message |}.

(** The own property [k] of an object literal with distinct keys. *)
Fixpoint ownProperty {A} (o : list (jsstring * A)) (k : jsstring) : option A :=
  match o with
  | [] => None
  | (k', a) :: o' => if bool_decide (k = k') then Some a else ownProperty o' k
  end.

Section RuleEngine.

(** The object literal [validationRules] of the variant. *)
Variable validationRules : list (jsstring * list Rule).

(** The loop [for (const rule of rules)] with its early return. *)
Fixpoint checkRules (rules : list Rule) (value : jsstring)
    (compareValue : option jsstring) : ValidationResult :=
  match rules with
  | [] => valid
  | rule :: rules' =>
      if negb (Rule.validate rule value compareValue)
      then invalid (Rule.errorMessage rule)
      else checkRules rules' value compareValue
  end.

Definition validate (type value : jsstring) (compareValue : option jsstring)
  : completion ValidationResult :=
  match Get (ownProperty validationRules type) type with
  | Undefined => Return (invalid (lit "Unknown validation type: " ++ type))
  | rules =>
      if bool_decide (type = lit "confirmPassword")
         && bool_decide (compareValue ≠ None)
      then
        if (length (trim value) =? 0)%nat
        then Return (invalid (lit "Please confirm your password"))
        else if bool_decide (Some value ≠ compareValue)
        then Return (invalid (lit "Passwords do not match"))
        else Return valid
      else
        match rules with
        | Own rules => Return (checkRules rules value compareValue)
        | _ => TypeError
        end
  end.

End RuleEngine.

Definition isFormValid (validationResults : gmap jsstring ValidationResult)
  : bool :=
  forallb isValid (values validationResults).

(** *** The base variant, [src/validation/validation.ts] *)

Module Base.

Definition validationRules : list (jsstring * list Rule) :=
  [ (lit "username",
      [ isRequired (Some (lit "Username is required"));
        minLength 3 (Some (lit "Username must be at least 3 characters")) ]);
    (lit "email",
      [ isRequired (Some (lit "Email is required"));
        isEmail (Some (lit "Please enter a valid email address")) ]);
    (lit "password",
      [ isRequired (Some (lit "Password is required"));
        minLength 8 (Some (lit "Password must be at least 8 characters")) ]);
    (lit "confirmPassword",
      [ isRequired (Some (lit "Please confirm your password")) ]);
    (lit "name",
      [ isRequired (Some (lit "Name is required"));
        minLength 2 (Some (lit "Name must be at least 2 characters")) ]) ].

Definition validate := validate validationRules.

(** One guarded assignment of [validateForm]:
    [if (formData.f !== undefined) results.f = validate(f, formData.f, c)].
    None of the four names is a member of [Object.prototype], so
    [formData.f] is the own property or [undefined]. *)
Definition validateIfPresent (formData : gmap jsstring jsstring) (f : jsstring)
    (compareValue : option jsstring)
    (results : gmap jsstring ValidationResult)
  : completion (gmap jsstring ValidationResult) :=
  match formData !! f with
  | Some value =>
      r ← validate f value compareValue; Return (Set_ results f r)
  | None => Return results
  end.

Definition validateForm (formData : gmap jsstring jsstring)
  : completion (gmap jsstring ValidationResult) :=
  let results := ∅ in
  results ← validateIfPresent formData (lit "username") None results;
  results ← validateIfPresent formData (lit "email") None results;
  results ← validateIfPresent formData (lit "password") None results;
  validateIfPresent formData (lit "confirmPassword")
    (formData !! lit "password") results.

Definition getValidationType (fieldName : jsstring) : jsstring :=
  if bool_decide (fieldName = lit "username") then lit "username"
  else if bool_decide (fieldName = lit "email") then lit "email"
  else if bool_decide (fieldName = lit "password") then lit "password"
  else if bool_decide (fieldName = lit "confirmPassword")
  then lit "confirmPassword"
  else lit "name".

End Base.

(** *** The extended variant (adds [phone], [address] and [age]) *)

Module Extended.

Definition validationRules : list (jsstring * list Rule) :=
  [ (lit "username",
      [ isRequired (Some (lit "Username is required"));
        minLength 3 (Some (lit "Username must be at least 3 characters")) ]);
    (lit "email",
      [ isRequired (Some (lit "Email is required"));
        isEmail (Some (lit "Please enter a valid email address")) ]);
    (lit "password",
      [ isRequired (Some (lit "Password is required"));
        minLength 8 (Some (lit "Password must be at least 8 characters")) ]);
    (lit "confirmPassword",
      [ isRequired (Some (lit "Please confirm your password")) ]);
    (lit "name",
      [ isRequired (Some (lit "Name is required"));
        minLength 2 (Some (lit "Name must be at least 2 characters")) ]);
    (lit "phone",
      [ isRequired (Some (lit "Phone number is required"));
        {| Rule.validate := λ v _, test (Times 10 (OneOf isDigit)) v;
           Rule.errorMessage := lit "Phone number must be 10 digits" |} ]);
    (lit "address",
      [ isRequired (Some (lit "Address is required"));
        minLength 5 (Some (lit "Address must be at least 5 characters")) ]);
    (lit "age",
      [ isRequired (Some (lit "Age is required"));
        {| Rule.validate := λ v _,
             negb (isNaN (Number v)) && lt (ofZ 0) (Number v)
             && lt (Number v) (ofZ 120);
           Rule.errorMessage := lit "Please enter a valid age" |} ]) ].

Definition validate := validate validationRules.

Definition getValidationType (fieldName : jsstring) : jsstring :=
  if bool_decide (fieldName = lit "username") then lit "username"
  else if bool_decide (fieldName = lit "email") then lit "email"
  else if bool_decide (fieldName = lit "password") then lit "password"
  else if bool_decide (fieldName = lit "confirmPassword")
  then lit "confirmPassword"
  else if bool_decide (fieldName = lit "phone") then lit "phone"
  else if bool_decide (fieldName = lit "address") then lit "address"
  else if bool_decide (fieldName = lit "age") then lit "age"
  else lit "name".

(** The callback of [Object.keys(formData).forEach]. A key without an own
    value would pass [undefined] to [validate], whose first rule calls
    [value.trim()]. *)
Definition validateKey (formData : gmap jsstring jsstring)
    (results : gmap jsstring ValidationResult) (key : jsstring)
  : completion (gmap jsstring ValidationResult) :=
  let type := getValidationType key in
  let compareValue :=
    if bool_decide (type = lit "confirmPassword")
    then formData !! lit "password" else None in
  match formData !! key with
  | Some value =>
      r ← validate type value compareValue; Return (Set_ results key r)
  | None => TypeError
  end.

Definition validateForm (formData : gmap jsstring jsstring)
  : completion (gmap jsstring ValidationResult) :=
  foldl (λ acc key, results ← acc; validateKey formData results key)
        (Return ∅) (keys formData).

End Extended.

(** ** The language of a pattern *)

(** The strings that a pattern matches as a whole. *)
Inductive matches : regex → jsstring → Prop :=
  | matches_Eps : matches Eps []
  | matches_OneOf p c : p c = true → matches (OneOf p) [c]
  | matches_Cat r1 r2 s1 s2 :
      matches r1 s1 → matches r2 s2 → matches (Cat r1 r2) (s1 ++ s2)
  | matches_Alt_l r1 r2 s : matches r1 s → matches (Alt r1 r2) s
  | matches_Alt_r r1 r2 s : matches r2 s → matches (Alt r1 r2) s
  | matches_Star_nil r : matches (Star r) []
  | matches_Star_app r s1 s2 :
      matches r s1 → matches (Star r) s2 → matches (Star r) (s1 ++ s2).

(** ** The form adapter, [src/src/script.ts]

    The part of the adapter that computes: what it reads of the
    [.form-input] elements and what it writes back to a field and to the
    element showing the field's error. *)

Module Script.

(** An input element: the attributes read and the class list written. *)
Record HTMLInputElement : Type := {
  id : jsstring;
  name : jsstring;
  value : jsstring;
  classList : gset jsstring
}.

(** The element with the id [`${field.id}-error`]: the two properties
    written. *)
Record ErrorElement : Type := {
  textContent : jsstring;
  opacity : jsstring
}.

(** [getFormData]: [data[input.name] = input.value] for each input, in
    document order, on an object that starts as [{}]. *)
Definition getFormData (inputs : list HTMLInputElement)
  : gmap jsstring jsstring :=
  foldl (λ data input, Set_ data (name input) (value input)) ∅ inputs.

(** [updateFieldUI(field, result)], with [errorElement] what
    [document.getElementById] finds ([None] for [null]). The test
    [!result.isValid && result.error] needs a non-empty message. *)
Definition updateFieldUI (errorElement : option ErrorElement)
    (field : HTMLInputElement) (result : ValidationResult)
  : HTMLInputElement * option ErrorElement :=
  match errorElement with
  | None => (field, None)
  | Some _ =>
      match isValid result, error result with
      | false, Some (u :: message) =>
          ({| id := id field; name := name field; value := value field;
              classList :=
                (classList field ∪ {[ lit "error" ]}) ∖ {[ lit "success" ]} |},
           Some {| textContent := u :: message; opacity := lit "1" |})
      | _, _ =>
          ({| id := id field; name := name field; value := value field;
              classList :=
                (classList field ∖ {[ lit "error" ]}) ∪ {[ lit "success" ]} |},
           Some {| textContent := []; opacity := lit "0" |})
      end
  end.

Section Imports.

(** The imports from ["../validation/validation"], of either variant. *)
Variable validate :
  jsstring → jsstring → option jsstring → completion ValidationResult.
Variable getValidationType : jsstring → jsstring.

(** [validateField(field)], with [inputs] the [.form-input] elements that
    [getFormData] reads. *)
Definition validateField (inputs : list HTMLInputElement)
    (errorElement : option ErrorElement) (field : HTMLInputElement)
  : completion (HTMLInputElement * option ErrorElement) :=
  let formData := getFormData inputs in
  let type := getValidationType (name field) in
  let compareValue :=
    if bool_decide (type = lit "confirmPassword")
    then formData !! lit "password" else None in
  validationResult ← validate type (value field) compareValue;
  Return (updateFieldUI errorElement field validationResult).

End Imports.

End Script.

(** ** Properties *)

(** *** The rule engine *)

Section RuleEngineFacts.

Variable validationRules : list (jsstring * list Rule).

(** A type that is a key of the rule table reaches the special case or the
    loop over its own rule sequence. *)
Lemma validate_own type rules value compareValue :
  ownProperty validationRules type = Some rules →
  validate validationRules type value compareValue =
    if bool_decide (type = lit "confirmPassword")
       && bool_decide (compareValue ≠ None)
    then
      if (length (trim value) =? 0)%nat
      then Return (invalid (lit "Please confirm your password"))
      else if bool_decide (Some value ≠ compareValue)
      then Return (invalid (lit "Passwords do not match"))
      else Return valid
    else Return (checkRules rules value compareValue).
Proof. intros Hown. unfold validate. rewrite Hown. reflexivity. Qed.

(** The guard on the type: a name that is neither a key of the table nor a
    member of [Object.prototype] gets the descriptive failure. *)
Lemma validate_unknown type value compareValue :
  ownProperty validationRules type = None →
  type ∉ ObjectPrototype →
  validate validationRules type value compareValue =
    Return (invalid (lit "Unknown validation type: " ++ type)).
Proof.
  intros Hown Hproto. unfold validate, Get. rewrite Hown.
  rewrite bool_decide_eq_false_2 by assumption. reflexivity.
Qed.

(** A name that the table lacks and [Object.prototype] has passes the guard
    and, outside the special case, is iterated over. *)
Lemma validate_inherited type value :
  ownProperty validationRules type = None →
  type ∈ ObjectPrototype →
  validate validationRules type value None = TypeError.
Proof.
  intros Hown Hproto. unfold validate, Get. rewrite Hown.
  rewrite bool_decide_eq_true_2 by assumption.
  rewrite andb_false_r. reflexivity.
Qed.

Lemma validate_known_returns type value compareValue :
  is_Some (ownProperty validationRules type) →
  ∃ r, validate validationRules type value compareValue = Return r.
Proof.
  intros [rules Hown]. rewrite (validate_own _ _ _ _ Hown).
  repeat case_match; eauto.
Qed.

(** The loop stops at the first rule whose predicate fails. *)
Lemma checkRules_first_failure pre rule post value compareValue :
  Forall (λ r, Rule.validate r value compareValue = true) pre →
  Rule.validate rule value compareValue = false →
  checkRules (pre ++ rule :: post) value compareValue =
    invalid (Rule.errorMessage rule).
Proof.
  intros Hpre Hrule. induction Hpre as [|r pre Hr _ IH]; simpl.
  - rewrite Hrule. reflexivity.
  - rewrite Hr. exact IH.
Qed.

Lemma checkRules_all_pass rules value compareValue :
  Forall (λ r, Rule.validate r value compareValue = true) rules →
  checkRules rules value compareValue = valid.
Proof.
  intros Hall. induction Hall as [|r rules Hr _ IH]; simpl.
  - reflexivity.
  - rewrite Hr. exact IH.
Qed.

End RuleEngineFacts.

Lemma trim_empty : trim [] = [].
Proof. reflexivity. Qed.

Lemma ownProperty_elem_of {A} (o : list (jsstring * A)) k a :
  ownProperty o k = Some a → (k, a) ∈ o.
Proof.
  induction o as [|[k' a'] o IH]; simpl; [discriminate|].
  case_bool_decide as Hk.
  - intros [= <-]. subst k'. left.
  - intros Hown. right. exact (IH Hown).
Qed.

Lemma confirmPassword_rules :
  ownProperty Base.validationRules (lit "confirmPassword")
    = Some [isRequired (Some (lit "Please confirm your password"))]
  ∧ ownProperty Extended.validationRules (lit "confirmPassword")
    = Some [isRequired (Some (lit "Please confirm your password"))].
Proof. split; reflexivity. Qed.

Lemma age_rules :
  ownProperty Extended.validationRules (lit "age")
    = Some [ isRequired (Some (lit "Age is required"));
             {| Rule.validate := λ v _,
                  negb (isNaN (Number v)) && lt (ofZ 0) (Number v)
                  && lt (Number v) (ofZ 120);
                Rule.errorMessage := lit "Please enter a valid age" |} ].
Proof. reflexivity. Qed.

Lemma length_eqb_nil {A} (l : list A) :
  (length l =? 0)%nat = bool_decide (l = []).
Proof. destruct l; reflexivity. Qed.

(** C2. With a defined [compareValue], [validate("confirmPassword", value,
    compareValue)] fails with "Please confirm your password" when [value]
    trimmed is empty, else fails with "Passwords do not match" when [value]
    differs from [compareValue], else succeeds; in both variants. *)
Theorem validate_confirmPassword_compare (value compareValue : jsstring) :
  let expected :=
    if bool_decide (trim value = [])
    then invalid (lit "Please confirm your password")
    else if bool_decide (value = compareValue)
    then valid
    else invalid (lit "Passwords do not match") in
  Base.validate (lit "confirmPassword") value (Some compareValue)
    = Return expected
  ∧ Extended.validate (lit "confirmPassword") value (Some compareValue)
    = Return expected.
Proof.
  destruct confirmPassword_rules as [HB HE].
  unfold Base.validate, Extended.validate.
  rewrite (validate_own _ _ _ _ _ HB), (validate_own _ _ _ _ _ HE).
  rewrite length_eqb_nil.
  rewrite (bool_decide_eq_true_2 (lit "confirmPassword" = _)) by done.
  rewrite (bool_decide_eq_true_2 (Some compareValue ≠ None)) by done.
  cbn [andb].
  repeat case_bool_decide; simplify_eq; done.
Qed.

(** C3. Without a [compareValue], [validate("confirmPassword", value)] runs
    the generic rule list, which only asks for a non-empty trimmed value: it
    succeeds iff [value] trimmed is non-empty and otherwise fails with
    "Please confirm your password"; in both variants. *)
Theorem validate_confirmPassword_alone (value : jsstring) :
  let result :=
    if bool_decide (trim value = [])
    then invalid (lit "Please confirm your password")
    else valid in
  Base.validate (lit "confirmPassword") value None = Return result
  ∧ Extended.validate (lit "confirmPassword") value None = Return result
  ∧ (Base.validate (lit "confirmPassword") value None = Return valid
     ↔ trim value ≠ [])
  ∧ (Extended.validate (lit "confirmPassword") value None = Return valid
     ↔ trim value ≠ []).
Proof.
  destruct confirmPassword_rules as [HB HE].
  unfold Base.validate, Extended.validate.
  rewrite (validate_own _ _ _ _ _ HB), (validate_own _ _ _ _ _ HE).
  rewrite (bool_decide_eq_false_2 (None ≠ None)) by (intros H; by apply H).
  rewrite andb_false_r. cbn [checkRules isRequired Rule.validate Rule.errorMessage].
  cbn [default from_option]. unfold id. cbv zeta.
  destruct (trim value) as [|c s]; cbn; split_and!; try done.
Qed.

(** C4. For a type that is a key of the rule table, outside the special case
    of [confirmPassword] with a [compareValue], [validate] goes through the
    type's rule sequence in its declared order: it fails with the message of
    the first rule whose predicate fails, and succeeds when every predicate
    passes. The statement holds for any rule table; [Base.validate] and
    [Extended.validate] are [validate] at the tables of the two variants. *)
Theorem validate_first_failure (validationRules : list (jsstring * list Rule))
    (type value : jsstring) (compareValue : option jsstring)
    (rules : list Rule) :
  ownProperty validationRules type = Some rules →
  ¬ (type = lit "confirmPassword" ∧ compareValue ≠ None) →
  (∀ pre rule post,
      rules = pre ++ rule :: post →
      Forall (λ r, Rule.validate r value compareValue = true) pre →
      Rule.validate rule value compareValue = false →
      validate validationRules type value compareValue
        = Return (invalid (Rule.errorMessage rule)))
  ∧ (Forall (λ r, Rule.validate r value compareValue = true) rules →
      validate validationRules type value compareValue = Return valid).
Proof.
  intros Hown Hspecial. rewrite (validate_own _ _ _ _ _ Hown).
  assert (bool_decide (type = lit "confirmPassword")
          && bool_decide (compareValue ≠ None) = false) as ->.
  { apply andb_false_iff. rewrite !bool_decide_eq_false.
    destruct (decide (type = lit "confirmPassword")); [right|left]; tauto. }
  split.
  - intros pre rule post -> Hpre Hrule.
    by rewrite checkRules_first_failure.
  - intros Hall. by rewrite checkRules_all_pass.
Qed.

(** At [Base.validate("username", "ab")] the first rule passes and the second
    fails. *)
Lemma validate_first_failure_witness :
  Base.validate (lit "username") (lit "ab") None
    = Return (invalid (lit "Username must be at least 3 characters")).
Proof.
  refine (proj1 (validate_first_failure Base.validationRules
                   (lit "username") (lit "ab") None _ eq_refl _)
            [isRequired (Some (lit "Username is required"))]
            (minLength 3 (Some (lit "Username must be at least 3 characters")))
            [] eq_refl _ eq_refl).
  - intros [_ H]. by apply H.
  - repeat constructor.
Defined.

Lemma Base_required_first :
  Forall (λ entry, ∃ message rest,
            entry.2 = isRequired (Some message) :: rest
            ∧ Base.validate entry.1 [] None = Return (invalid message))
         Base.validationRules.
Proof.
  repeat (apply Forall_cons_2;
            [eexists _, _; split; [reflexivity | vm_compute; reflexivity]|]).
  apply Forall_nil_2.
Qed.

Lemma Extended_required_first :
  Forall (λ entry, ∃ message rest,
            entry.2 = isRequired (Some message) :: rest
            ∧ Extended.validate entry.1 [] None = Return (invalid message))
         Extended.validationRules.
Proof.
  repeat (apply Forall_cons_2;
            [eexists _, _; split; [reflexivity | vm_compute; reflexivity]|]).
  apply Forall_nil_2.
Qed.

(** C6. For every type that is a key of the rule table, the first rule of
    the type is [isRequired] with the type's "required" message, and
    [validate(type, "")] without a [compareValue] fails with that message;
    "Username is required" for [username] and "Please confirm your password"
    for [confirmPassword]; in both variants. *)
Theorem validate_empty_required (type : jsstring) (rules : list Rule) :
  (ownProperty Base.validationRules type = Some rules →
     ∃ message rest,
       rules = isRequired (Some message) :: rest
       ∧ Base.validate type [] None = Return (invalid message))
  ∧ (ownProperty Extended.validationRules type = Some rules →
     ∃ message rest,
       rules = isRequired (Some message) :: rest
       ∧ Extended.validate type [] None = Return (invalid message))
  ∧ Base.validate (lit "username") [] None
      = Return (invalid (lit "Username is required"))
  ∧ Base.validate (lit "confirmPassword") [] None
      = Return (invalid (lit "Please confirm your password"))
  ∧ Extended.validate (lit "username") [] None
      = Return (invalid (lit "Username is required"))
  ∧ Extended.validate (lit "confirmPassword") [] None
      = Return (invalid (lit "Please confirm your password")).
Proof.
  split; [|split]; [| |split_and!; vm_compute; reflexivity].
  - intros Hown%ownProperty_elem_of.
    exact (proj1 (Forall_forall _ _) Base_required_first (type, rules) Hown).
  - intros Hown%ownProperty_elem_of.
    exact (proj1 (Forall_forall _ _) Extended_required_first (type, rules) Hown).
Qed.

(** The extended variant at [phone]: "Phone number is required". *)
Lemma validate_empty_required_witness :
  ∃ message rest,
    [ isRequired (Some (lit "Phone number is required"));
      {| Rule.validate := λ v _, test (Times 10 (OneOf isDigit)) v;
         Rule.errorMessage := lit "Phone number must be 10 digits" |} ]
      = isRequired (Some message) :: rest
    ∧ Extended.validate (lit "phone") [] None = Return (invalid message).
Proof.
  exact (proj1 (proj2 (validate_empty_required (lit "phone") _)) eq_refl).
Defined.

(** C7, at a type name that [Object.prototype] has. ["toString"] is not a
    key of the rule table, yet [validationRules["toString"]] is the inherited
    function, which passes the guard [!rules]; the loop over it throws
    instead of returning "Unknown validation type: toString". *)
Theorem validate_toString_throws (value : jsstring)
    (compareValue : option jsstring) :
  ownProperty Base.validationRules (lit "toString") = None
  ∧ ownProperty Extended.validationRules (lit "toString") = None
  ∧ Base.validate (lit "toString") value compareValue = TypeError
  ∧ Extended.validate (lit "toString") value compareValue = TypeError.
Proof. split_and!; reflexivity. Qed.

(** C8. In the extended variant [validate("age", value)] succeeds iff
    [value] trimmed is non-empty, [Number(value)] is not NaN and lies
    strictly between 0 and 120; "150" and "abc" fail, "30" succeeds. *)
Theorem validate_age (value : jsstring) (compareValue : option jsstring) :
  (Extended.validate (lit "age") value compareValue = Return valid
   ↔ trim value ≠ []
     ∧ isNaN (Number value) = false
     ∧ lt (ofZ 0) (Number value) = true
     ∧ lt (Number value) (ofZ 120) = true)
  ∧ Extended.validate (lit "age") (lit "150") None
      = Return (invalid (lit "Please enter a valid age"))
  ∧ Extended.validate (lit "age") (lit "abc") None
      = Return (invalid (lit "Please enter a valid age"))
  ∧ Extended.validate (lit "age") (lit "30") None = Return valid.
Proof.
  split; [|split_and!; vm_compute; reflexivity].
  unfold Extended.validate.
  rewrite (validate_own _ _ _ _ _ age_rules).
  rewrite (bool_decide_eq_false_2 (lit "age" = _)) by discriminate.
  cbn [andb checkRules isRequired Rule.validate Rule.errorMessage].
  destruct (trim value) as [|c s]; cbn [length Nat.ltb Nat.leb negb].
  - split; [discriminate | intros [H _]; by destruct H].
  - destruct (isNaN (Number value)), (lt (ofZ 0) (Number value)),
      (lt (Number value) (ofZ 120)); cbn; split; try discriminate;
      intros H; try done; destruct H as (_ & ? & ? & ?); discriminate.
Qed.

(** One [case] of a [switch] on a string: either the scrutinee is the label,
    and the goal is closed by evaluation, or the test is false. *)
Ltac switch_case f :=
  match goal with
  | |- context [bool_decide (f = ?label)] =>
      destruct (decide (f = label)) as [->|?];
      [reflexivity | rewrite (bool_decide_eq_false_2 (f = label)) by assumption]
  end.

(** C9. [getValidationType] gives back the field name when it is one of the
    known field names of the variant, and ["name"] for any other string. *)
Theorem getValidationType_total (fieldName : jsstring) :
  Base.getValidationType fieldName
    = (if bool_decide (fieldName ∈ lit <$> [ "username"; "email"; "password";
                                            "confirmPassword" ]%string)
       then fieldName else lit "name")
  ∧ Extended.getValidationType fieldName
    = (if bool_decide (fieldName ∈ lit <$> [ "username"; "email"; "password";
                                            "confirmPassword"; "phone";
                                            "address"; "age" ]%string)
       then fieldName else lit "name").
Proof.
  unfold Base.getValidationType, Extended.getValidationType.
  cbn [fmap list_fmap].
  split.
  - do 4 switch_case fieldName.
    rewrite bool_decide_eq_false_2; [reflexivity|].
    rewrite !elem_of_cons, elem_of_nil. tauto.
  - do 7 switch_case fieldName.
    rewrite bool_decide_eq_false_2; [reflexivity|].
    rewrite !elem_of_cons, elem_of_nil. tauto.
Qed.

(** C5. [isFormValid] is true iff every result of the mapping is valid; it
    is true of the empty mapping. *)
Theorem isFormValid_every (results : gmap jsstring ValidationResult) :
  (isFormValid results = true
   ↔ ∀ k r, results !! k = Some r → isValid r = true)
  ∧ isFormValid (∅ : gmap jsstring ValidationResult) = true.
Proof.
  split; [|reflexivity].
  unfold isFormValid, values. rewrite forallb_forall. split.
  - intros Hall k r Hk. apply Hall, list_elem_of_In.
    apply list_elem_of_fmap. exists (k, r). split; [done|].
    by apply elem_of_map_to_list.
  - intros Hall r [[k r'] [-> Hk]]%list_elem_of_In%list_elem_of_fmap.
    apply elem_of_map_to_list in Hk. exact (Hall k r' Hk).
Qed.

(** The examples of the two fields checked by a pattern or by length. *)
Lemma validate_examples :
  Base.validate (lit "email") (lit "a@b.co") None = Return valid
  ∧ Base.validate (lit "email") (lit "not-an-email") None
    = Return (invalid (lit "Please enter a valid email address"))
  ∧ Base.validate (lit "password") (lit "short") None
    = Return (invalid (lit "Password must be at least 8 characters"))
  ∧ Base.validate (lit "password") (lit "longenough") None = Return valid
  ∧ Extended.validate (lit "phone") (lit "0123456789") None = Return valid
  ∧ Extended.validate (lit "phone") (lit "01234-6789") None
    = Return (invalid (lit "Phone number must be 10 digits")).
Proof. split_and!; vm_compute; reflexivity. Qed.

(** *** The form aggregator *)

(** The fields that the aggregators read by name are not members of
    [Object.prototype]: [formData.f] is the own property or [undefined]. *)
Lemma form_fields_not_inherited :
  Forall (λ f, f ∉ ObjectPrototype)
         (lit <$> [ "username"; "email"; "password";
                    "confirmPassword" ]%string).
Proof.
  repeat (apply Forall_cons_2 || apply Forall_nil_2);
    apply (proj1 (bool_decide_eq_false _)); vm_compute; reflexivity.
Qed.

Lemma Set_lookup {A} (o : gmap jsstring A) k v k' :
  Set_ o k v !! k' =
    if decide (k' = k ∧ k ≠ lit "__proto__") then Some v else o !! k'.
Proof.
  unfold Set_. case_bool_decide as Hp.
  - rewrite decide_False by tauto. reflexivity.
  - destruct (decide (k' = k)) as [->|Hne].
    + rewrite decide_True by done. apply lookup_insert_eq.
    + rewrite decide_False by tauto. by apply lookup_insert_ne.
Qed.

Lemma elem_of_keys {A} (o : gmap jsstring A) k :
  k ∈ keys o ↔ is_Some (o !! k).
Proof.
  unfold keys. rewrite list_elem_of_fmap. split.
  - intros [[k' a] [-> Hin]]. apply elem_of_map_to_list in Hin. by exists a.
  - intros [a Ha]. exists (k, a). split; [done|]. by apply elem_of_map_to_list.
Qed.

Lemma Base_validateIfPresent formData f compareValue results :
  is_Some (ownProperty Base.validationRules f) →
  f ≠ lit "__proto__" →
  ∃ results',
    Base.validateIfPresent formData f compareValue results = Return results'
    ∧ (∀ k, k ≠ f → results' !! k = results !! k)
    ∧ match formData !! f with
      | Some value =>
          ∃ r, Base.validate f value compareValue = Return r
               ∧ results' !! f = Some r
      | None => results' !! f = results !! f
      end.
Proof.
  intros Hknown Hf. unfold Base.validateIfPresent.
  destruct (formData !! f) as [value|]; [|by exists results].
  destruct (validate_known_returns _ _ value compareValue Hknown) as [r Hr].
  unfold Base.validate. rewrite Hr. cbn.
  exists (Set_ results f r). split_and!; [done| |].
  - intros k Hk. rewrite Set_lookup. by rewrite decide_False by tauto.
  - exists r. split; [done|]. rewrite Set_lookup. by rewrite decide_True.
Qed.

(** The base [validateForm] returns, and its result holds the outcome of
    [validate] for each of the four enumerated fields that [formData] has,
    and nothing else. *)
Lemma Base_validateForm_spec (formData : gmap jsstring jsstring) :
  ∃ results,
    Base.validateForm formData = Return results
    ∧ ∀ k,
        (k ∈ lit <$> [ "username"; "email"; "password";
                       "confirmPassword" ]%string →
           match formData !! k with
           | Some value =>
               ∃ r, Base.validate k value
                      (if bool_decide (k = lit "confirmPassword")
                       then formData !! lit "password" else None) = Return r
                    ∧ results !! k = Some r
           | None => results !! k = None
           end)
        ∧ (k ∉ lit <$> [ "username"; "email"; "password";
                         "confirmPassword" ]%string →
           results !! k = None).
Proof.
  destruct (Base_validateIfPresent formData (lit "username") None ∅)
    as (r1 & E1 & O1 & F1); [by eexists | done |].
  destruct (Base_validateIfPresent formData (lit "email") None r1)
    as (r2 & E2 & O2 & F2); [by eexists | done |].
  destruct (Base_validateIfPresent formData (lit "password") None r2)
    as (r3 & E3 & O3 & F3); [by eexists | done |].
  destruct (Base_validateIfPresent formData (lit "confirmPassword")
              (formData !! lit "password") r3)
    as (r4 & E4 & O4 & F4); [by eexists | done |].
  exists r4. split.
  { unfold Base.validateForm. rewrite E1. cbn [mbind completion_bind].
    rewrite E2. cbn [mbind completion_bind].
    rewrite E3. cbn [mbind completion_bind]. exact E4. }
  intros k. cbn [fmap list_fmap]. rewrite !elem_of_cons, elem_of_nil. split.
  - intros [->|[->|[->|[->|[]]]]].
    + rewrite O4, O3, O2 by done.
      destruct (formData !! lit "username"); [exact F1|].
      by rewrite F1.
    + rewrite O4, O3 by done.
      destruct (formData !! lit "email"); [exact F2|].
      by rewrite F2, O1.
    + rewrite O4 by done.
      destruct (formData !! lit "password"); [exact F3|].
      by rewrite F3, O2, O1.
    + destruct (formData !! lit "confirmPassword"); [exact F4|].
      by rewrite F4, O3, O2, O1.
  - intros Hk. rewrite O4, O3, O2, O1 by tauto. done.
Qed.

Lemma Extended_getValidationType_known fieldName :
  is_Some (ownProperty Extended.validationRules
             (Extended.getValidationType fieldName)).
Proof.
  unfold Extended.getValidationType.
  repeat (case_bool_decide; [by eexists|]). by eexists.
Qed.

(** The extended [validateForm] over a list of keys that [formData] has:
    it returns, each key other than [__proto__] holds the outcome of
    [validate] for it, and every other entry is as it was. *)
Lemma Extended_forEach (formData : gmap jsstring jsstring) (l : list jsstring)
    (acc : gmap jsstring ValidationResult) :
  (∀ k, k ∈ l → is_Some (formData !! k)) →
  ∃ results,
    foldl (λ acc key,
             results ← acc; Extended.validateKey formData results key)
          (Return acc) l = Return results
    ∧ ∀ k,
        if decide (k ∈ l ∧ k ≠ lit "__proto__")
        then ∃ value r,
               formData !! k = Some value
               ∧ Extended.validate (Extended.getValidationType k) value
                   (if bool_decide (Extended.getValidationType k
                                    = lit "confirmPassword")
                    then formData !! lit "password" else None) = Return r
               ∧ results !! k = Some r
        else results !! k = acc !! k.
Proof.
  revert acc. induction l as [|key l IH]; intros acc Hl.
  - exists acc. split; [done|]. intros k.
    rewrite decide_False; [done|]. rewrite elem_of_nil. tauto.
  - destruct (Hl key) as [value Hvalue]; [left|].
    destruct (validate_known_returns Extended.validationRules
                (Extended.getValidationType key) value
                (if bool_decide (Extended.getValidationType key
                                 = lit "confirmPassword")
                 then formData !! lit "password" else None)
                (Extended_getValidationType_known key)) as [r Hr].
    destruct (IH (Set_ acc key r)) as (results & Hfold & Hres).
    { intros k Hk. apply Hl. by right. }
    exists results. split.
    { cbn [foldl mbind completion_bind]. unfold Extended.validateKey at 2.
      rewrite Hvalue. unfold Extended.validate in Hr. unfold Extended.validate.
      rewrite Hr. cbn [mbind completion_bind]. exact Hfold. }
    intros k. specialize (Hres k). rewrite Set_lookup in Hres.
    destruct (decide (k ∈ l ∧ k ≠ lit "__proto__")) as [[Hin Hp]|Hnot].
    + rewrite decide_True; [exact Hres|]. split; [by right|done].
    + destruct (decide (k = key ∧ key ≠ lit "__proto__")) as [[-> Hp]|Hnot'].
      * rewrite decide_True by (split; [left|done]). eauto.
      * rewrite decide_False; [exact Hres|].
        rewrite elem_of_cons. intros [[->|Hin] Hp]; tauto.
Qed.

(** C1 as stated, refuted on the base variant: for the form [{name: "Al"}]
    the base [validateForm] returns the empty mapping, so the present field
    [name] has no entry. *)
Lemma validateForm_base_skips_name :
  let formData : gmap jsstring jsstring := {[ lit "name" := lit "Al" ]} in
  formData !! lit "name" = Some (lit "Al")
  ∧ Base.validateForm formData = Return ∅
  ∧ ¬ (∀ formData : gmap jsstring jsstring,
         ∃ results,
           Base.validateForm formData = Return results
           ∧ ∀ k, is_Some (results !! k) ↔ is_Some (formData !! k)).
Proof.
  assert (Base.validateForm {[ lit "name" := lit "Al" ]} = Return ∅) as Hempty
    by (vm_compute; reflexivity).
  split_and!; [apply lookup_singleton_eq | exact Hempty |].
  intros H.
  destruct (H {[ lit "name" := lit "Al" ]}) as (results & Hret & Hdom).
  rewrite Hempty in Hret. injection Hret as <-.
  destruct (proj2 (Hdom (lit "name"))) as [r Hr].
  - rewrite lookup_singleton_eq. by eexists.
  - by rewrite lookup_empty in Hr.
Qed.

(** C1, amended. [validateForm] returns a mapping with no entry for a field
    name that [formData] lacks. The base variant has an entry exactly for
    the fields among [username], [email], [password] and [confirmPassword]
    that [formData] has; the extended variant has an entry for every field
    name that [formData] has, other than [__proto__]. *)
Theorem validateForm_entries (formData : gmap jsstring jsstring) :
  (∃ results,
     Base.validateForm formData = Return results
     ∧ ∀ k, is_Some (results !! k)
            ↔ is_Some (formData !! k)
              ∧ k ∈ lit <$> [ "username"; "email"; "password";
                              "confirmPassword" ]%string)
  ∧ (∃ results,
       Extended.validateForm formData = Return results
       ∧ (∀ k, is_Some (results !! k) → is_Some (formData !! k))
       ∧ (∀ k, k ≠ lit "__proto__" →
               is_Some (formData !! k) → is_Some (results !! k))).
Proof.
  split.
  - destruct (Base_validateForm_spec formData) as (results & Hret & Hres).
    exists results. split; [exact Hret|]. intros k.
    destruct (Hres k) as [Hin Hout].
    destruct (decide (k ∈ lit <$> [ "username"; "email"; "password";
                                    "confirmPassword" ]%string)) as [Hk|Hk].
    + specialize (Hin Hk). destruct (formData !! k) as [value|].
      * destruct Hin as (r & _ & ->). split; eauto.
      * rewrite Hin. split; [intros []|intros [[] _]]; done.
    + rewrite (Hout Hk). split; [intros []|intros [_ ?]]; done.
  - destruct (Extended_forEach formData (keys formData) ∅)
      as (results & Hret & Hres).
    { intros k. by rewrite elem_of_keys. }
    exists results. split; [exact Hret|]. split.
    + intros k Hk. specialize (Hres k).
      destruct (decide _) as [[Hin _]|_].
      * by apply elem_of_keys.
      * rewrite Hres, lookup_empty in Hk. by destruct Hk.
    + intros k Hp Hk. specialize (Hres k).
      rewrite decide_True in Hres by (by rewrite elem_of_keys).
      destruct Hres as (_ & r & _ & _ & ->). eauto.
Qed.

(** *** The shape of results *)

Lemma checkRules_shape rules value compareValue :
  Forall (λ rule, Rule.errorMessage rule ≠ []) rules →
  let r := checkRules rules value compareValue in
  (isValid r = false → ∃ e, error r = Some e ∧ e ≠ [])
  ∧ (isValid r = true → error r = None).
Proof.
  intros Hall. induction Hall as [|rule rules Hrule _ IH]; simpl.
  - split; [discriminate|done].
  - destruct (Rule.validate rule value compareValue); simpl; [exact IH|].
    split; [eauto|discriminate].
Qed.

Lemma invalid_shape (message : jsstring) :
  message ≠ [] →
  (isValid (invalid message) = false
     → ∃ e, error (invalid message) = Some e ∧ e ≠ [])
  ∧ (isValid (invalid message) = true → error (invalid message) = None).
Proof. intros Hm. split; [intros _; by exists message|discriminate]. Qed.

Lemma valid_shape :
  (isValid valid = false → ∃ e, error valid = Some e ∧ e ≠ [])
  ∧ (isValid valid = true → error valid = None).
Proof. split; [discriminate|done]. Qed.

Lemma validate_shape validationRules type value compareValue r :
  Forall (λ entry, Forall (λ rule, Rule.errorMessage rule ≠ []) entry.2)
         validationRules →
  validate validationRules type value compareValue = Return r →
  (isValid r = false → ∃ e, error r = Some e ∧ e ≠ [])
  ∧ (isValid r = true → error r = None).
Proof.
  intros Htable. unfold validate, Get.
  destruct (ownProperty validationRules type) as [rules|] eqn:Hown;
    [|destruct (bool_decide (type ∈ ObjectPrototype))];
    try (destruct (bool_decide (type = lit "confirmPassword")
                   && bool_decide (compareValue ≠ None));
         [destruct (length (trim value) =? 0)%nat;
          [|destruct (bool_decide (Some value ≠ compareValue))]|]);
    intros [= <-];
    try exact valid_shape; try (by apply invalid_shape).
  apply ownProperty_elem_of in Hown.
  apply checkRules_shape.
  exact (proj1 (Forall_forall _ _) Htable _ Hown).
Qed.

Lemma Base_messages :
  Forall (λ entry, Forall (λ rule, Rule.errorMessage rule ≠ []) entry.2)
         Base.validationRules.
Proof. repeat (apply Forall_cons_2 || apply Forall_nil_2); discriminate. Qed.

Lemma Extended_messages :
  Forall (λ entry, Forall (λ rule, Rule.errorMessage rule ≠ []) entry.2)
         Extended.validationRules.
Proof. repeat (apply Forall_cons_2 || apply Forall_nil_2); discriminate. Qed.

(** Every entry of the mapping that [validateForm] returns was returned by
    a call of [validate]. *)
Lemma Base_validateForm_entry formData results k r :
  Base.validateForm formData = Return results →
  results !! k = Some r →
  ∃ type value compareValue,
    Base.validate type value compareValue = Return r.
Proof.
  intros Hret Hk.
  destruct (Base_validateForm_spec formData) as (results' & Hret' & Hres).
  rewrite Hret in Hret'. injection Hret' as <-.
  destruct (Hres k) as [Hin Hout].
  destruct (decide (k ∈ lit <$> [ "username"; "email"; "password";
                                  "confirmPassword" ]%string)) as [Hk'|Hk'].
  - specialize (Hin Hk'). destruct (formData !! k) as [value|].
    + destruct Hin as (r' & Hr' & Hk''). rewrite Hk in Hk''.
      injection Hk'' as <-. eauto.
    + congruence.
  - rewrite (Hout Hk') in Hk. discriminate.
Qed.

Lemma Extended_validateForm_entry formData results k r :
  Extended.validateForm formData = Return results →
  results !! k = Some r →
  ∃ type value compareValue,
    Extended.validate type value compareValue = Return r.
Proof.
  intros Hret Hk.
  destruct (Extended_forEach formData (keys formData) ∅)
    as (results' & Hret' & Hres).
  { intros k'. by rewrite elem_of_keys. }
  unfold Extended.validateForm in Hret. rewrite Hret in Hret'.
  injection Hret' as <-. specialize (Hres k).
  destruct (decide _) as [_|_].
  - destruct Hres as (value & r' & _ & Hr' & Hk'). rewrite Hk in Hk'.
    injection Hk' as <-. eauto.
  - rewrite Hres, lookup_empty in Hk. discriminate.
Qed.

(** C10. A result that [validate] returns, and so an entry of the mapping
    that [validateForm] returns, carries a non-empty [error] when it is not
    valid and no [error] when it is valid; in both variants. *)
Theorem result_error_iff_invalid (r : ValidationResult) :
  (∃ type value compareValue,
     Base.validate type value compareValue = Return r
     ∨ Extended.validate type value compareValue = Return r)
  ∨ (∃ formData results k,
       (Base.validateForm formData = Return results
        ∨ Extended.validateForm formData = Return results)
       ∧ results !! k = Some r) →
  (isValid r = false → ∃ e, error r = Some e ∧ e ≠ [])
  ∧ (isValid r = true → error r = None).
Proof.
  assert (∀ type value compareValue,
            Base.validate type value compareValue = Return r
            ∨ Extended.validate type value compareValue = Return r →
            (isValid r = false → ∃ e, error r = Some e ∧ e ≠ [])
            ∧ (isValid r = true → error r = None)) as Hvalidate.
  { intros type value compareValue [Hr|Hr].
    - exact (validate_shape _ _ _ _ _ Base_messages Hr).
    - exact (validate_shape _ _ _ _ _ Extended_messages Hr). }
  intros [(type & value & compareValue & Hr)
         |(formData & results & k & [Hret|Hret] & Hk)].
  - exact (Hvalidate type value compareValue Hr).
  - destruct (Base_validateForm_entry _ _ _ _ Hret Hk)
      as (type & value & compareValue & Hr).
    apply (Hvalidate type value compareValue). by left.
  - destruct (Extended_validateForm_entry _ _ _ _ Hret Hk)
      as (type & value & compareValue & Hr).
    apply (Hvalidate type value compareValue). by right.
Qed.

(** The entry of [confirmPassword] in the form
    [{password: "longenough", confirmPassword: "different"}]. *)
Lemma result_error_iff_invalid_witness :
  (isValid (invalid (lit "Passwords do not match")) = false
     → ∃ e, error (invalid (lit "Passwords do not match")) = Some e ∧ e ≠ [])
  ∧ (isValid (invalid (lit "Passwords do not match")) = true
     → error (invalid (lit "Passwords do not match")) = None).
Proof.
  apply result_error_iff_invalid. right.
  exists (<[ lit "password" := lit "longenough" ]>
            {[ lit "confirmPassword" := lit "different" ]}).
  eexists. exists (lit "confirmPassword"). split.
  - left. vm_compute. reflexivity.
  - vm_compute. reflexivity.
Defined.

(** ** Further properties *)

(** *** Patterns *)

Lemma nullable_matches r : nullable r = true ↔ matches r [].
Proof.
  split.
  - induction r as [| |p|r1 IH1 r2 IH2|r1 IH1 r2 IH2|r IH]; simpl; intros H;
      try discriminate.
    + constructor.
    + apply andb_true_iff in H as [H1 H2].
      exact (matches_Cat r1 r2 [] [] (IH1 H1) (IH2 H2)).
    + apply orb_true_iff in H as [H|H];
        [apply matches_Alt_l | apply matches_Alt_r]; auto.
    + constructor.
  - intros H. remember [] as s0 eqn:Hs.
    induction H as [|p c Hc|r1 r2 s1 s2 _ IH1 _ IH2|r1 r2 s _ IH
                   |r1 r2 s _ IH|r|r s1 s2 _ _ _ _]; simpl; try done.
    + apply app_eq_nil in Hs as [-> ->]. by rewrite IH1, IH2.
    + by rewrite IH.
    + rewrite IH by done. apply orb_true_r.
Qed.

Lemma matches_Star_cons r c s :
  matches (Star r) (c :: s) →
  ∃ s1 s2, s = s1 ++ s2 ∧ matches r (c :: s1) ∧ matches (Star r) s2.
Proof.
  intros H. remember (Star r) as r' eqn:Hr. remember (c :: s) as s' eqn:Hs.
  revert s Hs.
  induction H as [| | | | | |r0 s1 s2 H1 _ H2 IH2]; intros s0 Hs; try done.
  injection Hr as ->. destruct s1 as [|c1 s1].
  - apply IH2; done.
  - injection Hs as -> <-. by exists s1, s2.
Qed.

Lemma deriv_matches c r s : matches (deriv c r) s ↔ matches r (c :: s).
Proof.
  revert s. induction r as [| |p|r1 IH1 r2 IH2|r1 IH1 r2 IH2|r IH];
    intros s; simpl.
  - split; inversion 1.
  - split; inversion 1.
  - destruct (p c) eqn:Hp; split; inversion 1; subst.
    + by constructor.
    + constructor.
    + congruence.
  - assert (matches (Cat (deriv c r1) r2) s
            → matches (Cat r1 r2) (c :: s)) as Hleft.
    { inversion 1 as [| |? ? s1 s2 H1 H2| | | |]; subst.
      apply IH1 in H1. exact (matches_Cat r1 r2 (c :: s1) s2 H1 H2). }
    assert (matches (Cat r1 r2) (c :: s)
            → matches (Cat (deriv c r1) r2) s
              ∨ (nullable r1 = true ∧ matches (deriv c r2) s)) as Hright.
    { inversion 1 as [| |? ? s1 s2 H1 H2 [Hr1 Hr2]| | | |]; subst.
      destruct s1 as [|c1 s1]; simpl in *; subst.
      - right. split; [by apply nullable_matches | by apply IH2].
      - injection H0 as -> <-. left. constructor; [by apply IH1|done]. }
    destruct (nullable r1) eqn:Hn; split.
    + inversion 1; subst; [by apply Hleft|].
      apply (matches_Cat r1 r2 [] (c :: s)); [by apply nullable_matches|].
      by apply IH2.
    + intros [H|[_ H]]%Hright; [by apply matches_Alt_l|by apply matches_Alt_r].
    + exact Hleft.
    + intros [H|[? _]]%Hright; [done|discriminate].
  - split; inversion 1; subst.
    + apply matches_Alt_l. by apply IH1.
    + apply matches_Alt_r. by apply IH2.
    + apply matches_Alt_l. by apply IH1.
    + apply matches_Alt_r. by apply IH2.
  - split.
    + inversion 1 as [| |? ? s1 s2 H1 H2| | | |]; subst. apply IH in H1.
      exact (matches_Star_app r (c :: s1) s2 H1 H2).
    + intros (s1 & s2 & -> & H1 & H2)%matches_Star_cons.
      constructor; [by apply IH|done].
Qed.

(** [test] decides membership in the language of the pattern. *)
Lemma test_matches r s : test r s = true ↔ matches r s.
Proof.
  unfold test. revert r. induction s as [|c s IH]; intros r; simpl.
  - apply nullable_matches.
  - rewrite IH. apply deriv_matches.
Qed.

Lemma matches_Cat_inv r1 r2 s :
  matches (Cat r1 r2) s
  ↔ ∃ s1 s2, s = s1 ++ s2 ∧ matches r1 s1 ∧ matches r2 s2.
Proof.
  split.
  - inversion 1; subst. eauto.
  - intros (s1 & s2 & -> & H1 & H2). by constructor.
Qed.

Lemma matches_OneOf_inv p s :
  matches (OneOf p) s ↔ ∃ c, s = [c] ∧ p c = true.
Proof.
  split.
  - inversion 1; subst. eauto.
  - intros (c & -> & Hc). by constructor.
Qed.

Lemma matches_Star_OneOf p s :
  matches (Star (OneOf p)) s ↔ Forall (λ c, p c = true) s.
Proof.
  split.
  - intros H. remember (Star (OneOf p)) as r eqn:Hr.
    induction H as [| | | | | |r0 s1 s2 H1 _ _ IH2]; try done.
    injection Hr as ->. apply matches_OneOf_inv in H1 as (c & -> & Hc).
    constructor; [done|]. by apply IH2.
  - induction 1 as [|c s Hc _ IH]; [constructor|].
    apply (matches_Star_app (OneOf p) [c] s); [by constructor|done].
Qed.

Lemma matches_Plus_OneOf p s :
  matches (Plus (OneOf p)) s ↔ s ≠ [] ∧ Forall (λ c, p c = true) s.
Proof.
  unfold Plus. rewrite matches_Cat_inv. split.
  - intros (s1 & s2 & -> & (c & -> & Hc)%matches_OneOf_inv
            & H2%matches_Star_OneOf).
    split; [done|by constructor].
  - intros [Hs Hall]. destruct Hall as [|c s Hc Hall]; [done|].
    exists [c], s. split; [done|].
    split; [by constructor|by apply matches_Star_OneOf].
Qed.

Lemma matches_Times_OneOf n p s :
  matches (Times n (OneOf p)) s
  ↔ length s = n ∧ Forall (λ c, p c = true) s.
Proof.
  revert s. induction n as [|n IH]; intros s; simpl.
  - split.
    + inversion 1. by split.
    + intros [->%nil_length_inv _]. constructor.
  - rewrite matches_Cat_inv. split.
    + intros (s1 & s2 & -> & (c & -> & Hc)%matches_OneOf_inv & [Hn Hall]%IH).
      simpl. split; [by rewrite Hn|by constructor].
    + intros [Hn Hall]. destruct Hall as [|c s Hc Hall]; [done|].
      exists [c], s. split; [done|]. split; [by constructor|].
      apply IH. split; [by injection Hn|done].
Qed.

(** *** Trimming *)

Lemma trimStart_blank s :
  Forall (λ c, isWhiteSpace c = true) (trimStart s)
  ↔ Forall (λ c, isWhiteSpace c = true) s.
Proof.
  induction s as [|c s IH]; simpl; [done|].
  destruct (isWhiteSpace c) eqn:Hc; [|done].
  rewrite IH. split; [by constructor|by inversion 1].
Qed.

Lemma trimStart_nil s :
  trimStart s = [] ↔ Forall (λ c, isWhiteSpace c = true) s.
Proof.
  induction s as [|c s IH]; simpl; [done|].
  destruct (isWhiteSpace c) eqn:Hc.
  - rewrite IH. split; [by constructor|by inversion 1].
  - split; [done|]. inversion 1; congruence.
Qed.

(** [value.trim()] is empty exactly when [value] holds white space only. *)
Lemma trim_nil s : trim s = [] ↔ Forall (λ c, isWhiteSpace c = true) s.
Proof.
  unfold trim, trimEnd.
  rewrite <-(reverse_involutive []) at 1. rewrite (inj_iff reverse).
  change (reverse []) with (@nil N).
  rewrite trimStart_nil, Forall_reverse. apply trimStart_blank.
Qed.

Lemma trim_cons_elem s c :
  c ∈ s → isWhiteSpace c = false → trim s ≠ [].
Proof.
  intros Hin Hc Ht%trim_nil.
  rewrite Forall_forall in Ht. specialize (Ht c Hin). congruence.
Qed.

(** *** The rules of each field kind *)

(** A type with the rule sequence [isRequired; rule], outside the special
    case: the first rule decides on the trimmed value, then [rule]. *)
Lemma validate_required_then validationRules type required rule value
    compareValue :
  ownProperty validationRules type = Some [isRequired (Some required); rule] →
  type ≠ lit "confirmPassword" →
  validate validationRules type value compareValue =
    Return (match trim value with
            | [] => invalid required
            | _ => if Rule.validate rule value compareValue then valid
                   else invalid (Rule.errorMessage rule)
            end).
Proof.
  intros Hown Htype. rewrite (validate_own _ _ _ _ _ Hown).
  rewrite (bool_decide_eq_false_2 (type = _)) by done.
  cbn [andb checkRules isRequired Rule.validate Rule.errorMessage].
  destruct (trim value); cbn; [done|].
  by destruct (Rule.validate rule value compareValue).
Qed.

Lemma email_rules :
  ownProperty Base.validationRules (lit "email")
    = Some [ isRequired (Some (lit "Email is required"));
             isEmail (Some (lit "Please enter a valid email address")) ]
  ∧ ownProperty Extended.validationRules (lit "email")
    = Some [ isRequired (Some (lit "Email is required"));
             isEmail (Some (lit "Please enter a valid email address")) ].
Proof. split; reflexivity. Qed.

(** The strings of the email pattern: three non-empty runs of units that
    are neither white space nor [@], joined by [@] and by [.]. *)
Lemma matches_emailRegex s :
  matches emailRegex s
  ↔ ∃ a b c,
      s = a ++ 0x40 :: b ++ 0x2E :: c
      ∧ (a ≠ [] ∧ Forall (λ u, isWhiteSpace u = false ∧ u ≠ 0x40) a)
      ∧ (b ≠ [] ∧ Forall (λ u, isWhiteSpace u = false ∧ u ≠ 0x40) b)
      ∧ (c ≠ [] ∧ Forall (λ u, isWhiteSpace u = false ∧ u ≠ 0x40) c).
Proof.
  assert (∀ l, Forall (λ u, negb (isWhiteSpace u || (u =? 0x40)) = true) l
               ↔ Forall (λ u, isWhiteSpace u = false ∧ u ≠ 0x40) l) as Hpart.
  { intros l. apply Forall_proper; [|done]. intros u.
    rewrite negb_true_iff, orb_false_iff, N.eqb_neq. done. }
  unfold emailRegex, Chr. cbv zeta. split.
  - intros (a & s1 & -> & [Ha Ha']%matches_Plus_OneOf & H)%matches_Cat_inv.
    apply matches_Cat_inv
      in H as (? & s2 & -> & (u & -> & <-%N.eqb_eq)%matches_OneOf_inv & H).
    apply matches_Cat_inv
      in H as (b & s3 & -> & [Hb Hb']%matches_Plus_OneOf & H).
    apply matches_Cat_inv
      in H as (? & c & -> & (v & -> & <-%N.eqb_eq)%matches_OneOf_inv
               & [Hc Hc']%matches_Plus_OneOf).
    exists a, b, c. rewrite <-!Hpart. done.
  - intros (a & b & c & -> & [Ha Ha'] & [Hb Hb'] & [Hc Hc']).
    rewrite <-Hpart in Ha', Hb', Hc'.
    apply (matches_Cat _ _ a (0x40 :: b ++ 0x2E :: c));
      [by apply matches_Plus_OneOf|].
    apply (matches_Cat _ _ [0x40] (b ++ 0x2E :: c)); [by constructor|].
    apply (matches_Cat _ _ b (0x2E :: c)); [by apply matches_Plus_OneOf|].
    apply (matches_Cat _ _ [0x2E] c); [by constructor|].
    by apply matches_Plus_OneOf.
Qed.

(** X1. [validate("email", value)] succeeds exactly on the strings
    [a@b.c] whose parts [a], [b] and [c] are non-empty and hold neither
    white space nor [@]; in both variants, whatever [compareValue]. *)
Theorem validate_email_shape (value : jsstring)
    (compareValue : option jsstring) :
  let part (s : jsstring) :=
    s ≠ [] ∧ Forall (λ u, isWhiteSpace u = false ∧ u ≠ 0x40) s in
  (Base.validate (lit "email") value compareValue = Return valid
   ↔ ∃ a b c, value = a ++ 0x40 :: b ++ 0x2E :: c
              ∧ part a ∧ part b ∧ part c)
  ∧ (Extended.validate (lit "email") value compareValue = Return valid
     ↔ ∃ a b c, value = a ++ 0x40 :: b ++ 0x2E :: c
                ∧ part a ∧ part b ∧ part c).
Proof.
  cbv zeta. destruct email_rules as [HB HE].
  unfold Base.validate, Extended.validate.
  rewrite (validate_required_then _ _ _ _ _ _ HB) by discriminate.
  rewrite (validate_required_then _ _ _ _ _ _ HE) by discriminate.
  cbn [isEmail Rule.validate Rule.errorMessage].
  rewrite <-matches_emailRegex, <-test_matches.
  assert (test emailRegex value = true → trim value ≠ []) as Htrim.
  { intros (a & b & c & -> & _ & _ & _)%test_matches%matches_emailRegex.
    apply (trim_cons_elem _ 0x40); [|done].
    rewrite elem_of_app, elem_of_cons. auto. }
  destruct (test emailRegex value) eqn:Ht.
  - destruct (trim value); [by destruct Htrim|]. by split.
  - destruct (trim value); split; split; discriminate.
Qed.

Lemma isDigit_range u : isDigit u = true ↔ 0x30 ≤ u ≤ 0x39.
Proof. unfold isDigit. rewrite andb_true_iff, !N.leb_le. done. Qed.

Lemma isDigit_not_space u : isDigit u = true → isWhiteSpace u = false.
Proof.
  intros [H1 H2]%isDigit_range. unfold isWhiteSpace.
  repeat (apply orb_false_intro); try (apply N.eqb_neq; lia).
  apply andb_false_iff. left. apply N.leb_gt. lia.
Qed.

Lemma phone_rules :
  ownProperty Extended.validationRules (lit "phone")
    = Some [ isRequired (Some (lit "Phone number is required"));
             {| Rule.validate := λ v _, test (Times 10 (OneOf isDigit)) v;
                Rule.errorMessage := lit "Phone number must be 10 digits" |} ].
Proof. reflexivity. Qed.

(** X2. In the extended variant [validate("phone", value)] succeeds exactly
    on the strings of ten units that are all ASCII digits: no separator, no
    sign, no surrounding white space and no digit of another script. *)
Theorem validate_phone_shape (value : jsstring)
    (compareValue : option jsstring) :
  Extended.validate (lit "phone") value compareValue = Return valid
  ↔ length value = 10%nat ∧ Forall (λ u, 0x30 ≤ u ≤ 0x39) value.
Proof.
  unfold Extended.validate.
  rewrite (validate_required_then _ _ _ _ _ _ phone_rules) by discriminate.
  cbn [Rule.validate Rule.errorMessage].
  rewrite <-(Forall_iff _ value _ isDigit_range).
  rewrite <-matches_Times_OneOf, <-test_matches.
  assert (test (Times 10 (OneOf isDigit)) value = true → trim value ≠ [])
    as Htrim.
  { intros [Hlen Hall]%test_matches%matches_Times_OneOf.
    destruct Hall as [|u s Hu _]; [done|].
    apply (trim_cons_elem _ u); [left|by apply isDigit_not_space]. }
  destruct (test (Times 10 (OneOf isDigit)) value) eqn:Ht.
  - destruct (trim value); [by destruct Htrim|]. by split.
  - destruct (trim value); split; discriminate.
Qed.

Lemma length_rules :
  ownProperty Base.validationRules (lit "username")
    = Some [ isRequired (Some (lit "Username is required"));
             minLength 3 (Some (lit "Username must be at least 3 characters")) ]
  ∧ ownProperty Base.validationRules (lit "password")
    = Some [ isRequired (Some (lit "Password is required"));
             minLength 8 (Some (lit "Password must be at least 8 characters")) ]
  ∧ ownProperty Base.validationRules (lit "name")
    = Some [ isRequired (Some (lit "Name is required"));
             minLength 2 (Some (lit "Name must be at least 2 characters")) ]
  ∧ ownProperty Extended.validationRules (lit "username")
    = Some [ isRequired (Some (lit "Username is required"));
             minLength 3 (Some (lit "Username must be at least 3 characters")) ]
  ∧ ownProperty Extended.validationRules (lit "password")
    = Some [ isRequired (Some (lit "Password is required"));
             minLength 8 (Some (lit "Password must be at least 8 characters")) ]
  ∧ ownProperty Extended.validationRules (lit "name")
    = Some [ isRequired (Some (lit "Name is required"));
             minLength 2 (Some (lit "Name must be at least 2 characters")) ]
  ∧ ownProperty Extended.validationRules (lit "address")
    = Some [ isRequired (Some (lit "Address is required"));
             minLength 5 (Some (lit "Address must be at least 5 characters")) ].
Proof. split_and!; reflexivity. Qed.

(** A type with the rules [isRequired; minLength min] accepts a value iff
    it holds a unit that is not white space and has [min] units or more,
    white space included. *)
Lemma validate_required_minLength validationRules type required min short
    value compareValue :
  ownProperty validationRules type
    = Some [isRequired (Some required); minLength min (Some short)] →
  type ≠ lit "confirmPassword" →
  validate validationRules type value compareValue = Return valid
  ↔ ¬ Forall (λ u, isWhiteSpace u = true) value ∧ (min ≤ length value)%nat.
Proof.
  intros Hown Htype.
  rewrite (validate_required_then _ _ _ _ _ _ Hown Htype).
  rewrite <-trim_nil. cbn [minLength Rule.validate].
  destruct (trim value) as [|u s].
  - split; [discriminate|]. by intros [[] _].
  - destruct (Nat.leb_spec min (length value)).
    + split; [done|reflexivity].
    + split; [discriminate|]. intros [_ ?]. lia.
Qed.

(** X3. The fields checked by length: [validate] accepts a [username],
    [password], [name] or (extended variant) [address] iff the value holds
    a unit that is not white space and its length, white space included, is
    at least 3, 8, 2 or 5. *)
Theorem validate_length_fields (value : jsstring)
    (compareValue : option jsstring) :
  let accepted (min : nat) :=
    ¬ Forall (λ u, isWhiteSpace u = true) value ∧ (min ≤ length value)%nat in
  (Base.validate (lit "username") value compareValue = Return valid
   ↔ accepted 3%nat)
  ∧ (Base.validate (lit "password") value compareValue = Return valid
     ↔ accepted 8%nat)
  ∧ (Base.validate (lit "name") value compareValue = Return valid
     ↔ accepted 2%nat)
  ∧ (Extended.validate (lit "username") value compareValue = Return valid
     ↔ accepted 3%nat)
  ∧ (Extended.validate (lit "password") value compareValue = Return valid
     ↔ accepted 8%nat)
  ∧ (Extended.validate (lit "name") value compareValue = Return valid
     ↔ accepted 2%nat)
  ∧ (Extended.validate (lit "address") value compareValue = Return valid
     ↔ accepted 5%nat).
Proof.
  cbv zeta.
  destruct length_rules as (H1 & H2 & H3 & H4 & H5 & H6 & H7).
  split_and!;
    eapply validate_required_minLength; try eassumption; discriminate.
Qed.

Lemma checkRules_invalid rules value compareValue message :
  checkRules rules value compareValue = invalid message →
  ∃ rule, rule ∈ rules ∧ Rule.errorMessage rule = message.
Proof.
  induction rules as [|rule rules IH]; simpl; [discriminate|].
  destruct (Rule.validate rule value compareValue); simpl.
  - intros (r & Hr & Hm)%IH. exists r. split; [by right|done].
  - intros [= <-]. exists rule. split; [left|done].
Qed.

(** A type whose first rule is [isRequired message], no later rule sharing
    the message: the result is [message] exactly on blank values. *)
Lemma validate_required_iff validationRules type message rest value
    compareValue :
  ownProperty validationRules type = Some (isRequired (Some message) :: rest) →
  Forall (λ rule, Rule.errorMessage rule ≠ message) rest →
  (type = lit "confirmPassword"
   → message = lit "Please confirm your password") →
  validate validationRules type value compareValue = Return (invalid message)
  ↔ Forall (λ u, isWhiteSpace u = true) value.
Proof.
  intros Hown Hrest Hconfirm. rewrite (validate_own _ _ _ _ _ Hown).
  rewrite <-trim_nil.
  destruct (bool_decide (type = lit "confirmPassword")
            && bool_decide (compareValue ≠ None)) eqn:Hspecial.
  - apply andb_true_iff in Hspecial as [Htype%bool_decide_eq_true _].
    rewrite (Hconfirm Htype). destruct (trim value) as [|u s]; simpl.
    + done.
    + destruct (bool_decide (Some value ≠ compareValue)); split; discriminate.
  - cbn [checkRules isRequired Rule.validate Rule.errorMessage].
    destruct (trim value) as [|u s]; cbn; [done|].
    split; [|discriminate].
    intros [= (rule & Hin & Hm)%checkRules_invalid].
    rewrite Forall_forall in Hrest. by destruct (Hrest rule Hin).
Qed.

Lemma Base_required_only_first :
  Forall (λ entry, ∃ message rest,
            entry.2 = isRequired (Some message) :: rest
            ∧ Forall (λ rule, Rule.errorMessage rule ≠ message) rest
            ∧ (entry.1 = lit "confirmPassword"
               → message = lit "Please confirm your password"))
         Base.validationRules.
Proof.
  repeat (apply Forall_cons_2 || apply Forall_nil_2);
    eexists _, _; (split; [reflexivity|]); split;
    try (repeat (apply Forall_cons_2 || apply Forall_nil_2);
         vm_compute; discriminate);
    first [reflexivity | discriminate].
Qed.

Lemma Extended_required_only_first :
  Forall (λ entry, ∃ message rest,
            entry.2 = isRequired (Some message) :: rest
            ∧ Forall (λ rule, Rule.errorMessage rule ≠ message) rest
            ∧ (entry.1 = lit "confirmPassword"
               → message = lit "Please confirm your password"))
         Extended.validationRules.
Proof.
  repeat (apply Forall_cons_2 || apply Forall_nil_2);
    eexists _, _; (split; [reflexivity|]); split;
    try (repeat (apply Forall_cons_2 || apply Forall_nil_2);
         vm_compute; discriminate);
    first [reflexivity | discriminate].
Qed.

(** X4. For every type that is a key of the rule table, [validate] answers
    with the type's "required" message exactly when the value is blank
    (empty or white space only), with or without a [compareValue]; in both
    variants. *)
Theorem validate_blank_required (type value : jsstring)
    (compareValue : option jsstring) (rules : list Rule) :
  (ownProperty Base.validationRules type = Some rules →
     ∃ message rest,
       rules = isRequired (Some message) :: rest
       ∧ (Base.validate type value compareValue = Return (invalid message)
          ↔ Forall (λ u, isWhiteSpace u = true) value))
  ∧ (ownProperty Extended.validationRules type = Some rules →
     ∃ message rest,
       rules = isRequired (Some message) :: rest
       ∧ (Extended.validate type value compareValue
            = Return (invalid message)
          ↔ Forall (λ u, isWhiteSpace u = true) value)).
Proof.
  split; intros Hown.
  - pose proof (ownProperty_elem_of _ _ _ Hown) as Hin.
    destruct (proj1 (Forall_forall _ _) Base_required_only_first _ Hin)
      as (message & rest & Hrules & Hrest & Hconfirm).
    simpl in Hrules, Hconfirm. subst rules. exists message, rest.
    split; [done|].
    exact (validate_required_iff _ _ _ _ _ _ Hown Hrest Hconfirm).
  - pose proof (ownProperty_elem_of _ _ _ Hown) as Hin.
    destruct (proj1 (Forall_forall _ _) Extended_required_only_first _ Hin)
      as (message & rest & Hrules & Hrest & Hconfirm).
    simpl in Hrules, Hconfirm. subst rules. exists message, rest.
    split; [done|].
    exact (validate_required_iff _ _ _ _ _ _ Hown Hrest Hconfirm).
Qed.

(** A password of eight spaces is answered with "Password is required". *)
Lemma validate_blank_required_witness :
  Base.validate (lit "password") (lit "        ") None
    = Return (invalid (lit "Password is required")).
Proof.
  destruct (proj1 (validate_blank_required (lit "password") (lit "        ")
                     None _) eq_refl)
    as (message & rest & [= <- <-] & Hiff).
  apply Hiff. vm_compute. repeat constructor.
Defined.

(** No rule of the two tables looks at [compareValue]. *)
Lemma Base_rules_ignore_compareValue :
  Forall (λ entry,
            Forall (λ rule, ∀ value compareValue,
                      Rule.validate rule value compareValue
                      = Rule.validate rule value None) entry.2)
         Base.validationRules.
Proof.
  repeat (apply Forall_cons_2 || apply Forall_nil_2); intros; reflexivity.
Qed.

Lemma Extended_rules_ignore_compareValue :
  Forall (λ entry,
            Forall (λ rule, ∀ value compareValue,
                      Rule.validate rule value compareValue
                      = Rule.validate rule value None) entry.2)
         Extended.validationRules.
Proof.
  repeat (apply Forall_cons_2 || apply Forall_nil_2); intros; reflexivity.
Qed.

Lemma checkRules_ignore_compareValue rules value compareValue :
  Forall (λ rule, ∀ value compareValue,
            Rule.validate rule value compareValue
            = Rule.validate rule value None) rules →
  checkRules rules value compareValue = checkRules rules value None.
Proof.
  induction 1 as [|rule rules Hrule _ IH]; simpl; [done|].
  by rewrite Hrule, IH.
Qed.

Lemma validate_ignore_compareValue validationRules type value compareValue :
  Forall (λ entry,
            Forall (λ rule, ∀ value compareValue,
                      Rule.validate rule value compareValue
                      = Rule.validate rule value None) entry.2)
         validationRules →
  type ≠ lit "confirmPassword" →
  validate validationRules type value compareValue
  = validate validationRules type value None.
Proof.
  intros Htable Htype. unfold validate.
  rewrite (bool_decide_eq_false_2 (type = _)) by done. cbn [andb].
  destruct (ownProperty validationRules type) as [rules|] eqn:Hown;
    [|by unfold Get; destruct (bool_decide (type ∈ ObjectPrototype))].
  apply ownProperty_elem_of in Hown. cbn [Get]. f_equal.
  apply checkRules_ignore_compareValue.
  exact (proj1 (Forall_forall _ _) Htable _ Hown).
Qed.

(** X5. For every type other than [confirmPassword], known or not, the
    [compareValue] has no effect on what [validate] does; in both
    variants. *)
Theorem validate_compareValue_unused (type value : jsstring)
    (compareValue : option jsstring) :
  type ≠ lit "confirmPassword" →
  Base.validate type value compareValue = Base.validate type value None
  ∧ Extended.validate type value compareValue
    = Extended.validate type value None.
Proof.
  intros Htype. split.
  - exact (validate_ignore_compareValue _ _ _ _
             Base_rules_ignore_compareValue Htype).
  - exact (validate_ignore_compareValue _ _ _ _
             Extended_rules_ignore_compareValue Htype).
Qed.

Lemma validate_compareValue_unused_witness :
  Base.validate (lit "email") (lit "a@b.co") (Some (lit "other"))
    = Base.validate (lit "email") (lit "a@b.co") None
  ∧ Extended.validate (lit "email") (lit "a@b.co") (Some (lit "other"))
    = Extended.validate (lit "email") (lit "a@b.co") None.
Proof.
  apply validate_compareValue_unused. discriminate.
Defined.

Lemma Base_getValidationType_known fieldName :
  is_Some (ownProperty Base.validationRules
             (Base.getValidationType fieldName)).
Proof.
  unfold Base.getValidationType.
  repeat (case_bool_decide; [by eexists|]). by eexists.
Qed.

(** X6. The type that [getValidationType] computes from a field name is
    always a key of the rule table, so [validate] on it returns a result: it
    neither takes the unknown-type exit nor throws; in both variants. *)
Theorem validate_getValidationType_returns (fieldName value : jsstring)
    (compareValue : option jsstring) :
  (∃ rules r,
     ownProperty Base.validationRules (Base.getValidationType fieldName)
       = Some rules
     ∧ Base.validate (Base.getValidationType fieldName) value compareValue
       = Return r)
  ∧ (∃ rules r,
       ownProperty Extended.validationRules
         (Extended.getValidationType fieldName) = Some rules
       ∧ Extended.validate (Extended.getValidationType fieldName) value
           compareValue = Return r).
Proof.
  split.
  - destruct (Base_getValidationType_known fieldName) as [rules Hown].
    destruct (validate_known_returns Base.validationRules _ value
                compareValue (mk_is_Some _ _ Hown)) as [r Hr].
    by exists rules, r.
  - destruct (Extended_getValidationType_known fieldName) as [rules Hown].
    destruct (validate_known_returns Extended.validationRules _ value
                compareValue (mk_is_Some _ _ Hown)) as [r Hr].
    by exists rules, r.
Qed.

(** *** Whole forms *)

Lemma isFormValid_lookup (results : gmap jsstring ValidationResult) :
  isFormValid results = true
  ↔ map_Forall (λ _ r, isValid r = true) results.
Proof.
  unfold isFormValid, values. rewrite forallb_forall. split.
  - intros Hall k r Hk. apply Hall, list_elem_of_In.
    apply list_elem_of_fmap. exists (k, r). split; [done|].
    by apply elem_of_map_to_list.
  - intros Hall r [[k r'] [-> Hk]]%list_elem_of_In%list_elem_of_fmap.
    apply elem_of_map_to_list in Hk. exact (Hall k r' Hk).
Qed.

(** A result of [validate] that is valid is [{isValid: true}]. *)
Lemma validate_valid validationRules type value compareValue r :
  Forall (λ entry, Forall (λ rule, Rule.errorMessage rule ≠ []) entry.2)
         validationRules →
  validate validationRules type value compareValue = Return r →
  isValid r = true → r = valid.
Proof.
  intros Htable Hr Hvalid.
  destruct (validate_shape _ _ _ _ _ Htable Hr) as [_ Herror].
  specialize (Herror Hvalid). destruct r as [v e]. simpl in *. by subst.
Qed.

(** X7. The base [validateForm] followed by [isFormValid]: the answer is
    true iff each of the fields [username], [email], [password] and
    [confirmPassword] that the form has passes [validate], the last one
    against the form's [password]. Fields that are absent, and fields of any
    other name, do not count. *)
Theorem Base_form_valid (formData : gmap jsstring jsstring) :
  ∃ results,
    Base.validateForm formData = Return results
    ∧ (isFormValid results = true
       ↔ ∀ k value,
           k ∈ lit <$> [ "username"; "email"; "password";
                         "confirmPassword" ]%string →
           formData !! k = Some value →
           Base.validate k value
             (if bool_decide (k = lit "confirmPassword")
              then formData !! lit "password" else None) = Return valid).
Proof.
  destruct (Base_validateForm_spec formData) as (results & Hret & Hres).
  exists results. split; [exact Hret|].
  rewrite isFormValid_lookup. split.
  - intros Hall k value Hk Hvalue. destruct (Hres k) as [Hin _].
    specialize (Hin Hk). rewrite Hvalue in Hin.
    destruct Hin as (r & Hr & Hlookup). rewrite Hr. f_equal.
    exact (validate_valid _ _ _ _ _ Base_messages Hr (Hall k r Hlookup)).
  - intros Hall k r Hlookup. destruct (Hres k) as [Hin Hout].
    destruct (decide (k ∈ lit <$> [ "username"; "email"; "password";
                                    "confirmPassword" ]%string)) as [Hk|Hk].
    + specialize (Hin Hk). destruct (formData !! k) as [value|] eqn:Hvalue.
      * destruct Hin as (r' & Hr' & Hlookup').
        rewrite (Hall k value Hk Hvalue) in Hr'. injection Hr' as <-.
        rewrite Hlookup in Hlookup'. by injection Hlookup' as ->.
      * congruence.
    + rewrite (Hout Hk) in Hlookup. discriminate.
Qed.

(** X8. The extended [validateForm] followed by [isFormValid]: the answer
    is true iff every field of the form, under the type that
    [getValidationType] gives its name, passes [validate]; a field named
    [__proto__] does not count. *)
Theorem Extended_form_valid (formData : gmap jsstring jsstring) :
  ∃ results,
    Extended.validateForm formData = Return results
    ∧ (isFormValid results = true
       ↔ ∀ k value,
           k ≠ lit "__proto__" →
           formData !! k = Some value →
           Extended.validate (Extended.getValidationType k) value
             (if bool_decide (Extended.getValidationType k
                              = lit "confirmPassword")
              then formData !! lit "password" else None) = Return valid).
Proof.
  destruct (Extended_forEach formData (keys formData) ∅)
    as (results & Hret & Hres).
  { intros k. by rewrite elem_of_keys. }
  exists results. split; [exact Hret|].
  rewrite isFormValid_lookup. split.
  - intros Hall k value Hk Hvalue. specialize (Hres k).
    rewrite decide_True in Hres
      by (split; [apply elem_of_keys; by eexists|done]).
    destruct Hres as (value' & r & Hvalue' & Hr & Hlookup).
    rewrite Hvalue in Hvalue'. injection Hvalue' as <-.
    rewrite Hr. f_equal.
    exact (validate_valid _ _ _ _ _ Extended_messages Hr (Hall k r Hlookup)).
  - intros Hall k r Hlookup. specialize (Hres k).
    destruct (decide _) as [[_ Hk]|_].
    + destruct Hres as (value & r' & Hvalue & Hr' & Hlookup').
      rewrite (Hall k value Hk Hvalue) in Hr'. injection Hr' as <-.
      rewrite Hlookup in Hlookup'. by injection Hlookup' as ->.
    + rewrite Hres, lookup_empty in Hlookup. discriminate.
Qed.

(** With a [compareValue], a valid [confirmPassword] equals it. *)
Lemma validate_confirm_equal validationRules rules value password r :
  ownProperty validationRules (lit "confirmPassword") = Some rules →
  validate validationRules (lit "confirmPassword") value (Some password)
    = Return r →
  isValid r = true → value = password.
Proof.
  intros Hown. rewrite (validate_own _ _ _ _ _ Hown).
  rewrite (bool_decide_eq_true_2 (lit "confirmPassword" = _)) by done.
  rewrite (bool_decide_eq_true_2 (Some password ≠ None)) by done.
  cbn [andb]. destruct (length (trim value) =? 0)%nat.
  - by intros [= <-].
  - case_bool_decide as Hne.
    + by intros [= <-].
    + intros _ _. by injection Hne.
Qed.

(** A valid result for a type with the rules [isRequired; minLength min]
    means [min] units or more. *)
Lemma validate_minLength_valid validationRules type required min short value
    compareValue r :
  ownProperty validationRules type
    = Some [isRequired (Some required); minLength min (Some short)] →
  type ≠ lit "confirmPassword" →
  validate validationRules type value compareValue = Return r →
  isValid r = true → (min ≤ length value)%nat.
Proof.
  intros Hown Htype.
  rewrite (validate_required_then _ _ _ _ _ _ Hown Htype).
  cbn [minLength Rule.validate].
  destruct (trim value); [by intros [= <-]|].
  destruct (Nat.leb_spec min (length value)); [done|by intros [= <-]].
Qed.

(** X9. When the form has both [password] and [confirmPassword] and
    [isFormValid] accepts what [validateForm] returns, the two values are
    equal and have eight units or more; in both variants. *)
Theorem valid_form_passwords_match (formData : gmap jsstring jsstring)
    (results : gmap jsstring ValidationResult) (password confirm : jsstring) :
  Base.validateForm formData = Return results
    ∨ Extended.validateForm formData = Return results →
  isFormValid results = true →
  formData !! lit "password" = Some password →
  formData !! lit "confirmPassword" = Some confirm →
  confirm = password ∧ (8 ≤ length password)%nat.
Proof.
  intros Hret Hvalid%isFormValid_lookup Hp Hc.
  destruct length_rules as (_ & HBp & _ & _ & HEp & _ & _).
  destruct confirmPassword_rules as [HBc HEc].
  destruct Hret as [Hret|Hret].
  - destruct (Base_validateForm_spec formData) as (results' & Hret' & Hres).
    rewrite Hret in Hret'. injection Hret' as <-.
    pose proof (proj1 (Hres (lit "password"))) as Hin.
    rewrite Hp in Hin. destruct Hin as (rp & Hrp & Hlp);
      [cbn [fmap list_fmap]; rewrite !elem_of_cons; auto|].
    pose proof (proj1 (Hres (lit "confirmPassword"))) as Hin.
    rewrite Hc, Hp in Hin. destruct Hin as (rc & Hrc & Hlc);
      [cbn [fmap list_fmap]; rewrite !elem_of_cons; auto 6|].
    rewrite (bool_decide_eq_false_2 (lit "password" = _)) in Hrp
      by discriminate.
    rewrite (bool_decide_eq_true_2 (lit "confirmPassword" = _)) in Hrc
      by done.
    split.
    + exact (validate_confirm_equal _ _ _ _ _ HBc Hrc (Hvalid _ _ Hlc)).
    + refine (validate_minLength_valid _ _ _ _ _ _ _ _ HBp _ Hrp
                (Hvalid _ _ Hlp)). discriminate.
  - destruct (Extended_forEach formData (keys formData) ∅)
      as (results' & Hret' & Hres).
    { intros k. by rewrite elem_of_keys. }
    unfold Extended.validateForm in Hret. rewrite Hret in Hret'.
    injection Hret' as <-.
    pose proof (Hres (lit "password")) as Hin.
    rewrite decide_True in Hin
      by (split; [apply elem_of_keys; by eexists|discriminate]).
    destruct Hin as (? & rp & Hp' & Hrp & Hlp).
    rewrite Hp in Hp'. injection Hp' as <-.
    pose proof (Hres (lit "confirmPassword")) as Hin.
    rewrite decide_True in Hin
      by (split; [apply elem_of_keys; by eexists|discriminate]).
    destruct Hin as (? & rc & Hc' & Hrc & Hlc).
    rewrite Hc in Hc'. injection Hc' as <-.
    change (Extended.getValidationType (lit "password"))
      with (lit "password") in Hrp.
    change (Extended.getValidationType (lit "confirmPassword"))
      with (lit "confirmPassword") in Hrc.
    rewrite (bool_decide_eq_false_2 (lit "password" = _)) in Hrp
      by discriminate.
    rewrite (bool_decide_eq_true_2 (lit "confirmPassword" = _)), Hp in Hrc
      by done.
    split.
    + exact (validate_confirm_equal _ _ _ _ _ HEc Hrc (Hvalid _ _ Hlc)).
    + refine (validate_minLength_valid _ _ _ _ _ _ _ _ HEp _ Hrp
                (Hvalid _ _ Hlp)). discriminate.
Qed.

(** The form [{password: "longenough", confirmPassword: "longenough"}]. *)
Lemma valid_form_passwords_match_witness :
  lit "longenough" = lit "longenough" ∧ (8 ≤ length (lit "longenough"))%nat.
Proof.
  refine (valid_form_passwords_match
            (<[ lit "password" := lit "longenough" ]>
               {[ lit "confirmPassword" := lit "longenough" ]})
            _ (lit "longenough") (lit "longenough") _ _ _ _).
  - left. vm_compute. reflexivity.
  - vm_compute. reflexivity.
  - vm_compute. reflexivity.
  - vm_compute. reflexivity.
Defined.

(** *** Unknown types *)

Lemma ownProperty_None {A} (o : list (jsstring * A)) k :
  k ∉ o.*1 → ownProperty o k = None.
Proof.
  induction o as [|[k' a] o IH]; [done|].
  rewrite fmap_cons, not_elem_of_cons. intros [Hk Ho]. simpl.
  rewrite bool_decide_eq_false_2 by done. by apply IH.
Qed.

(** X14. For a type that is neither a key of the rule table nor the name of
    a member of [Object.prototype], [validate] returns the failure
    "Unknown validation type: " followed by the type, whatever the value and
    the [compareValue]; in both variants. *)
Theorem validate_unknown_type (type value : jsstring)
    (compareValue : option jsstring) :
  type ∉ ObjectPrototype →
  (type ∉ Base.validationRules.*1 →
     Base.validate type value compareValue
     = Return (invalid (lit "Unknown validation type: " ++ type)))
  ∧ (type ∉ Extended.validationRules.*1 →
     Extended.validate type value compareValue
     = Return (invalid (lit "Unknown validation type: " ++ type))).
Proof.
  intros Hproto. split; intros Hkey%ownProperty_None;
    by apply validate_unknown.
Qed.

(** The type ["phone"] in the base variant. *)
Lemma validate_unknown_type_witness :
  Base.validate (lit "phone") (lit "0123456789") None
  = Return (invalid (lit "Unknown validation type: phone")).
Proof.
  refine (proj1 (validate_unknown_type (lit "phone") (lit "0123456789")
                   None _) _);
    apply (proj1 (bool_decide_eq_false _)); vm_compute; reflexivity.
Defined.

(** *** The form adapter *)

Lemma getFormData_foldl (inputs : list Script.HTMLInputElement)
    (data : gmap jsstring jsstring) (k : jsstring) :
  foldl (λ data input, Set_ data (Script.name input) (Script.value input))
        data inputs !! k =
    match last (filter (λ input, Script.name input = k) inputs) with
    | Some input =>
        if decide (k = lit "__proto__") then data !! k
        else Some (Script.value input)
    | None => data !! k
    end.
Proof.
  induction inputs as [|input inputs IH] using rev_ind; [done|].
  rewrite foldl_app, filter_app, last_app. cbn [foldl].
  rewrite Set_lookup, filter_cons, filter_nil.
  destruct (decide (Script.name input = k)) as [<-|Hk]; cbn [last].
  - destruct (decide (Script.name input = lit "__proto__")) as [Hp|Hp].
    + rewrite decide_False by tauto. rewrite IH. by destruct (last _).
    + by rewrite decide_True.
  - rewrite decide_False by (intros [? _]; congruence). exact IH.
Qed.

(** X10. [getFormData] gives each name the value of the last input of that
    name, and no entry to a name that no input has; an input named
    [__proto__] leaves no entry. *)
Theorem getFormData_last_wins (inputs : list Script.HTMLInputElement)
    (k : jsstring) :
  Script.getFormData inputs !! k =
    if decide (k = lit "__proto__") then None
    else Script.value
           <$> last (filter (λ input, Script.name input = k) inputs).
Proof.
  unfold Script.getFormData. rewrite getFormData_foldl, lookup_empty.
  destruct (last _); by destruct (decide _).
Qed.

Lemma filter_name_fresh (inputs : list Script.HTMLInputElement) k :
  k ∉ Script.name <$> inputs →
  filter (λ input, Script.name input = k) inputs = [].
Proof.
  induction inputs as [|input inputs IH]; [done|].
  rewrite fmap_cons, not_elem_of_cons, filter_cons. intros [Hk Hfresh].
  rewrite decide_False by done. by apply IH.
Qed.

Lemma getFormData_NoDup (inputs : list Script.HTMLInputElement)
    (field : Script.HTMLInputElement) :
  NoDup (Script.name <$> inputs) →
  field ∈ inputs →
  Script.name field ≠ lit "__proto__" →
  Script.getFormData inputs !! Script.name field = Some (Script.value field).
Proof.
  intros Hnodup Hin Hp. unfold Script.getFormData.
  rewrite getFormData_foldl.
  assert (filter (λ input, Script.name input = Script.name field) inputs
          = [field]) as ->; [|by cbn [last]; rewrite decide_False].
  induction inputs as [|input inputs IH]; [by apply elem_of_nil in Hin|].
  rewrite fmap_cons in Hnodup. apply NoDup_cons in Hnodup as [Hfresh Hnodup].
  rewrite filter_cons. apply elem_of_cons in Hin as [<-|Hin].
  - rewrite decide_True by done. f_equal. by apply filter_name_fresh.
  - rewrite decide_False; [by apply IH|].
    intros Heq. apply Hfresh. rewrite Heq.
    apply list_elem_of_fmap. by exists field.
Qed.

Lemma classes_shown (classes : gset jsstring) (e s : jsstring) :
  e ≠ s →
  e ∈ (classes ∪ {[ e ]}) ∖ {[ s ]}
  ∧ (s ∉ (classes ∪ {[ e ]}) ∖ {[ s ]})
  ∧ (∀ c, c ≠ e → c ≠ s →
          (c ∈ (classes ∪ {[ e ]}) ∖ {[ s ]} ↔ c ∈ classes))
  ∧ ((classes ∪ {[ e ]}) ∖ {[ s ]} ∪ {[ e ]}) ∖ {[ s ]}
    = (classes ∪ {[ e ]}) ∖ {[ s ]}.
Proof.
  intros Hes. split_and!; [| | |apply set_eq]; intros;
    rewrite ?elem_of_difference, ?elem_of_union, ?elem_of_difference,
      ?elem_of_union, ?elem_of_singleton; intuition congruence.
Qed.

Lemma classes_cleared (classes : gset jsstring) (e s : jsstring) :
  e ≠ s →
  s ∈ (classes ∖ {[ e ]}) ∪ {[ s ]}
  ∧ (e ∉ (classes ∖ {[ e ]}) ∪ {[ s ]})
  ∧ (∀ c, c ≠ e → c ≠ s →
          (c ∈ (classes ∖ {[ e ]}) ∪ {[ s ]} ↔ c ∈ classes))
  ∧ (((classes ∖ {[ e ]}) ∪ {[ s ]}) ∖ {[ e ]}) ∪ {[ s ]}
    = (classes ∖ {[ e ]}) ∪ {[ s ]}.
Proof.
  intros Hes. split_and!; [| | |apply set_eq]; intros;
    rewrite ?elem_of_union, ?elem_of_difference, ?elem_of_union,
      ?elem_of_difference, ?elem_of_singleton; intuition congruence.
Qed.

(** X11. [updateFieldUI] with an error element: afterwards the field has
    exactly one of the classes [error] and [success], [error] iff the result
    is invalid with a non-empty message, which is then the text shown; the
    other classes stay; and a second call with the same result changes
    nothing. *)
Theorem updateFieldUI_state (element : Script.ErrorElement)
    (field : Script.HTMLInputElement) (result : ValidationResult) :
  ∃ field' element',
    Script.updateFieldUI (Some element) field result = (field', Some element')
    ∧ (lit "error" ∈ Script.classList field'
       ↔ isValid result = false
         ∧ ∃ u message, error result = Some (u :: message))
    ∧ (lit "success" ∈ Script.classList field'
       ↔ lit "error" ∉ Script.classList field')
    ∧ (lit "error" ∈ Script.classList field'
       → Some (Script.textContent element') = error result)
    ∧ (lit "success" ∈ Script.classList field'
       → Script.textContent element' = [])
    ∧ (∀ c, c ≠ lit "error" → c ≠ lit "success" →
            (c ∈ Script.classList field' ↔ c ∈ Script.classList field))
    ∧ Script.updateFieldUI (Some element') field' result
      = (field', Some element').
Proof.
  assert (lit "error" ≠ lit "success") as Hclasses by discriminate.
  unfold Script.updateFieldUI.
  destruct (classes_shown (Script.classList field) _ _ Hclasses)
    as (Se & Ss & Sc & Si).
  destruct (classes_cleared (Script.classList field) _ _ Hclasses)
    as (Cs & Ce & Cc & Ci).
  destruct (isValid result), (error result) as [[|u message]|];
    eexists _, _; (split; [reflexivity|]);
    cbn [Script.classList Script.textContent];
    try (split_and!;
         [ split;
           [ by intros ?%Ce
           | intros (Hv & u0 & m0 & He);
             first [discriminate Hv | discriminate He] ]
         | split; intros _; [exact Ce | exact Cs]
         | by intros ?%Ce
         | done
         | exact Cc
         | by rewrite Ci ]).
  split_and!.
  - split; [intros _; split; eauto | intros _; exact Se].
  - split; [by intros ?%Ss | by intros []].
  - done.
  - by intros ?%Ss.
  - exact Sc.
  - by rewrite Si.
Qed.





Lemma Base_getValidationType_field k :
  k ∈ lit <$> [ "username"; "email"; "password"; "confirmPassword" ]%string →
  Base.getValidationType k = k ∧ k ≠ lit "__proto__".
Proof.
  cbn [fmap list_fmap]. rewrite !elem_of_cons, elem_of_nil.
  intros [->|[->|[->|[->|[]]]]]; by split.
Qed.

(** X13. Validation of one field on blur against validation of the form on
    submit, when no two inputs share a name: for a field that
    [validateForm] covers, [validateField] shows the very result that
    [validateForm(getFormData())] holds under the field's name. The extended
    variant covers every name but [__proto__]; the base variant covers the
    four enumerated names and holds no result for a field of another
    name. *)
Theorem validateField_agrees_with_validateForm
    (inputs : list Script.HTMLInputElement)
    (element : option Script.ErrorElement)
    (field : Script.HTMLInputElement) :
  NoDup (Script.name <$> inputs) →
  field ∈ inputs →
  (Script.name field ∈ lit <$> [ "username"; "email"; "password";
                                 "confirmPassword" ]%string →
     ∃ results r,
       Base.validateForm (Script.getFormData inputs) = Return results
       ∧ results !! Script.name field = Some r
       ∧ Script.validateField Base.validate Base.getValidationType inputs
           element field
         = Return (Script.updateFieldUI element field r))
  ∧ (Script.name field ∉ lit <$> [ "username"; "email"; "password";
                                   "confirmPassword" ]%string →
     ∃ results,
       Base.validateForm (Script.getFormData inputs) = Return results
       ∧ results !! Script.name field = None)
  ∧ (Script.name field ≠ lit "__proto__" →
     ∃ results r,
       Extended.validateForm (Script.getFormData inputs) = Return results
       ∧ results !! Script.name field = Some r
       ∧ Script.validateField Extended.validate Extended.getValidationType
           inputs element field
         = Return (Script.updateFieldUI element field r)).
Proof.
  intros Hnodup Hin. split_and!.
  - intros Hname.
    destruct (Base_getValidationType_field _ Hname) as [Htype Hp].
    pose proof (getFormData_NoDup _ _ Hnodup Hin Hp) as Hvalue.
    destruct (Base_validateForm_spec (Script.getFormData inputs))
      as (results & Hret & Hres).
    pose proof (proj1 (Hres (Script.name field)) Hname) as Hentry.
    rewrite Hvalue in Hentry. destruct Hentry as (r & Hr & Hlookup).
    exists results, r. split_and!; [done..|].
    unfold Script.validateField. cbv zeta. rewrite Htype, Hr. done.
  - intros Hname.
    destruct (Base_validateForm_spec (Script.getFormData inputs))
      as (results & Hret & Hres).
    exists results. split; [done|]. by apply Hres.
  - intros Hp.
    pose proof (getFormData_NoDup _ _ Hnodup Hin Hp) as Hvalue.
    destruct (Extended_forEach (Script.getFormData inputs)
                (keys (Script.getFormData inputs)) ∅)
      as (results & Hret & Hres).
    { intros k. by rewrite elem_of_keys. }
    specialize (Hres (Script.name field)).
    rewrite decide_True in Hres
      by (split; [apply elem_of_keys; by eexists|done]).
    destruct Hres as (value & r & Hvalue' & Hr & Hlookup).
    rewrite Hvalue in Hvalue'. injection Hvalue' as <-.
    exists results, r. split_and!; [done..|].
    unfold Script.validateField. cbv zeta. rewrite Hr. done.
Qed.

(** A form with the two inputs [email] and [nickname]. *)
Lemma validateField_agrees_with_validateForm_witness :
  let email :=
    {| Script.id := lit "email"; Script.name := lit "email";
       Script.value := lit "a@b.co"; Script.classList := ∅ |} in
  let nickname :=
    {| Script.id := lit "nickname"; Script.name := lit "nickname";
       Script.value := lit "Al"; Script.classList := ∅ |} in
  ∃ results r,
    Base.validateForm (Script.getFormData [email; nickname]) = Return results
    ∧ results !! lit "email" = Some r
    ∧ Script.validateField Base.validate Base.getValidationType
        [email; nickname] None email
      = Return (Script.updateFieldUI None email r).
Proof.
  intros email nickname.
  refine (proj1 (validateField_agrees_with_validateForm
                   [email; nickname] None email _ _) _).
  - apply (bool_decide_unpack _). vm_compute. exact I.
  - left.
  - apply (bool_decide_unpack _). vm_compute. exact I.
Defined.
